(** * Cron parser: a shallow embedding of [src/index.ts]

    The module parses 5- or 6-field cron expressions, validates single
    fields, renders an English description and simulates the next
    occurrences minute by minute.

    Modelling conventions.
    - A JavaScript string is a sequence of UTF-16 code units: [jsstring] is
      [list N], one [N] per code unit.  Literals are written [js "..."].
    - A JavaScript number that the program handles is either [NaN] or an
      integer; integers are kept exact ([Z]).  This is what the engine
      computes as long as the integers stay below 2^53 in magnitude
      ([safeInteger]); the statements that compare parsed numbers with
      bounds or values given from outside take these to be such integers.
    - [undefined] array elements are [None].
    - A [Date] is its time value, an integer number of milliseconds.  The
      clock is taken to be far from the ends of the range of time values
      (8.64e15 ms either side of the epoch), where a [Date] becomes invalid.
    - The clock, the host's time zone and the Unicode upper-case table
      outside ASCII are not part of the program: the reading of the clock is
      the argument [now] of [getNextExecutions], the other two are variables
      of the section [Host]. *)

From Stdlib Require Import ZArith NArith List Bool Lia String Ascii Sorted.
Import ListNotations.

Local Open Scope Z_scope.

(* ================================================================= *)
(** ** Strings *)

Abbreviation jschar := N (only parsing).
Abbreviation jsstring := (list N) (only parsing).

(** [js] turns a literal into its code units. *)
Definition js (s : string) : jsstring :=
  List.map N_of_ascii (list_ascii_of_string s).

Fixpoint str_eqb (a b : jsstring) : bool :=
  match a, b with
  | [], [] => true
  | x :: a', y :: b' => N.eqb x y && str_eqb a' b'
  | _, _ => false
  end.

(** [String.prototype.startsWith] *)
Fixpoint startsWith (s prefix : jsstring) {struct prefix} : bool :=
  match prefix, s with
  | [], _ => true
  | p :: prefix', c :: s' => N.eqb c p && startsWith s' prefix'
  | _ :: _, [] => false
  end.

(** [String.prototype.includes] *)
Fixpoint includes (s sub : jsstring) : bool :=
  startsWith s sub ||
  match s with
  | [] => false
  | _ :: s' => includes s' sub
  end.

(** [String.prototype.substring] and [slice] with one non-negative index *)
Definition substring (s : jsstring) (start : nat) : jsstring := skipn start s.
Definition slice (s : jsstring) (start : nat) : jsstring := skipn start s.

(** [String.prototype.charAt] *)
Definition charAt (s : jsstring) (pos : nat) : jsstring := firstn 1 (skipn pos s).

(** WhiteSpace and LineTerminator code points: the class [\s] of regular
    expressions, which is also what [trim] and [parseInt] strip. *)
Definition isWhiteSpace (c : jschar) : bool :=
  let n := Z.of_N c in
  (n =? 9) || (n =? 10) || (n =? 11) || (n =? 12) || (n =? 13) || (n =? 32)
  || (n =? 160) || (n =? 5760) || ((8192 <=? n) && (n <=? 8202))
  || (n =? 8232) || (n =? 8233) || (n =? 8239) || (n =? 8287)
  || (n =? 12288) || (n =? 65279).

Fixpoint trimStart (s : jsstring) : jsstring :=
  match s with
  | [] => []
  | c :: r => if isWhiteSpace c then trimStart r else s
  end.

Fixpoint trimEnd (s : jsstring) : jsstring :=
  match s with
  | [] => []
  | c :: r =>
      match trimEnd r with
      | [] => if isWhiteSpace c then [] else [c]
      | r' => c :: r'
      end
  end.

(** [String.prototype.trim] *)
Definition trim (s : jsstring) : jsstring := trimEnd (trimStart s).

(** [s.split(/\s+/)]: the pieces between maximal runs of white space.  [tok]
    is the piece being read, [in_sep] tells that the previous code unit
    belonged to a separator.  A separator at either end of the string leaves
    an empty piece there, and the empty string splits into one empty piece. *)
Fixpoint split_ws_from (tok : jsstring) (in_sep : bool) (s : jsstring)
  : list jsstring :=
  match s with
  | [] => [tok]
  | c :: r =>
      if isWhiteSpace c then
        if in_sep then split_ws_from tok true r
        else tok :: split_ws_from [] true r
      else split_ws_from (tok ++ [c]) false r
  end.

Definition split_ws (s : jsstring) : list jsstring := split_ws_from [] false s.

(** [s.split(sep)] for a separator of one code unit *)
Fixpoint split_from (sep : jschar) (tok : jsstring) (s : jsstring)
  : list jsstring :=
  match s with
  | [] => [tok]
  | c :: r =>
      if N.eqb c sep then tok :: split_from sep [] r
      else split_from sep (tok ++ [c]) r
  end.

Definition split (s : jsstring) (sep : jschar) : list jsstring :=
  split_from sep [] s.

(** [Array.prototype.join] on an array of strings *)
Fixpoint join (l : list jsstring) (sep : jsstring) : jsstring :=
  match l with
  | [] => []
  | [x] => x
  | x :: r => x ++ sep ++ join r sep
  end.

(** [Array.prototype.join] where elements may be [undefined]: such an element
    contributes the empty string. *)
Definition join_opt (l : list (option jsstring)) (sep : jsstring) : jsstring :=
  join (List.map (fun e => match e with Some x => x | None => [] end) l) sep.

(** [String.prototype.padStart] *)
Fixpoint repeat_fill (fill cur : jsstring) (n : nat) : jsstring :=
  match n with
  | O => []
  | S n' =>
      match cur with
      | [] => match fill with
              | [] => []
              | f :: fr => f :: repeat_fill fill fr n'
              end
      | c :: cr => c :: repeat_fill fill cr n'
      end
  end.

Definition padStart (s : jsstring) (targetLength : nat) (padString : jsstring)
  : jsstring :=
  if (targetLength <=? List.length s)%nat then s
  else repeat_fill padString padString (targetLength - List.length s) ++ s.

(* ================================================================= *)
(** ** Numbers *)

Inductive num := NaN | Int (z : Z).

Definition isNaN (n : num) : bool :=
  match n with NaN => true | Int _ => false end.

(** The integers that a number holds exactly ([Number.isSafeInteger]): below
    2^53 in magnitude.  [parseInt] and the arithmetic of the engine round
    from there on, and the embedding is exact up to there. *)
Definition safeInteger (n : Z) : Prop := Z.abs n < 2 ^ 53.

(** Relational operators: a comparison with [NaN] is false. *)
Definition num_lt (a b : num) : bool :=
  match a, b with Int x, Int y => x <? y | _, _ => false end.
Definition num_le (a b : num) : bool :=
  match a, b with Int x, Int y => x <=? y | _, _ => false end.
Definition num_gt (a b : num) : bool := num_lt b a.
Definition num_ge (a b : num) : bool := num_le b a.

(** [===] on numbers: [NaN] is not equal to itself. *)
Definition num_strict_eq (a b : num) : bool :=
  match a, b with Int x, Int y => x =? y | _, _ => false end.

(** [%]: the remainder has the sign of the dividend; a zero or [NaN] divisor
    gives [NaN]. *)
Definition num_rem (a b : num) : num :=
  match a, b with
  | Int x, Int y => if y =? 0 then NaN else Int (Z.rem x y)
  | _, _ => NaN
  end.

(** SameValueZero, the equality of [Array.prototype.includes]: here [NaN]
    equals itself. *)
Definition sameValueZero (a b : num) : bool :=
  match a, b with
  | NaN, NaN => true
  | Int x, Int y => x =? y
  | _, _ => false
  end.

(** [Array.prototype.includes] on an array of numbers *)
Definition array_includes (l : list num) (v : num) : bool :=
  existsb (fun e => sameValueZero e v) l.

(** The value of a code unit as a digit: 0-9, then the letters in either
    case for 10-35. *)
Definition digit_value (c : jschar) : option Z :=
  let n := Z.of_N c in
  if (48 <=? n) && (n <=? 57) then Some (n - 48)
  else if (97 <=? n) && (n <=? 122) then Some (n - 87)
  else if (65 <=? n) && (n <=? 90) then Some (n - 55)
  else None.

(** The digits of the longest prefix of [s] made of radix-[R] digits *)
Fixpoint radix_prefix (R : Z) (s : jsstring) : list Z :=
  match s with
  | [] => []
  | c :: r =>
      match digit_value c with
      | Some d => if d <? R then d :: radix_prefix R r else []
      | None => []
      end
  end.

Definition digits_value (R : Z) (ds : list Z) : Z :=
  fold_left (fun acc d => acc * R + d) ds 0.

(** [parseInt(string, radix)]; [radix = None] is the call with one argument.
    Leading white space is skipped, then an optional sign, then (radix 16 or
    absent only) a [0x] prefix, then the longest run of digits is read; no
    digit at all gives [NaN].  What follows the digits is ignored.  The
    integer read is kept exact; the engine rounds it to the nearest number
    it can hold when it is not a [safeInteger]. *)
Definition parseInt (inputString : jsstring) (radix : option Z) : num :=
  let S := trimStart inputString in
  let sign :=
    match S with
    | c :: _ => if N.eqb c 45 then -1 else 1
    | [] => 1
    end in
  let S :=
    match S with
    | c :: r => if N.eqb c 45 || N.eqb c 43 then r else S
    | [] => S
    end in
  let R := match radix with Some r => r | None => 0 end in
  if negb (R =? 0) && ((R <? 2) || (36 <? R)) then NaN
  else
    let stripPrefix := (R =? 0) || (R =? 16) in
    let R := if R =? 0 then 10 else R in
    let hex := stripPrefix && (startsWith S (js "0x") || startsWith S (js "0X")) in
    let R := if hex then 16 else R in
    let S := if hex then skipn 2 S else S in
    match radix_prefix R S with
    | [] => NaN
    | ds => Int (sign * digits_value R ds)
    end.

(** The code unit of a decimal digit *)
Definition digit_char (d : Z) : jschar := Z.to_N (48 + d).

(** Decimal digits of a non-negative integer, most significant first *)
Fixpoint digits_of (fuel : nat) (n : Z) (acc : jsstring) : jsstring :=
  match fuel with
  | O => acc
  | S f =>
      let acc' := digit_char (n mod 10) :: acc in
      if n <? 10 then acc' else digits_of f (n / 10) acc'
  end.

(** The string of an integer, as a template literal inserts it: all its
    digits, which is what the engine prints for a [safeInteger] (it turns to
    exponent form from 10^21 on). *)
Definition NumberToString (n : Z) : jsstring :=
  if n <? 0 then 45%N :: digits_of (S (Z.to_nat (Z.log2 (- n)))) (- n) []
  else digits_of (S (Z.to_nat (Z.log2 n))) n [].

(* ================================================================= *)
(** ** The expression splitter *)

Record ParsedCron := mkParsedCron {
  second : option jsstring;
  minute : jsstring;
  hour : jsstring;
  dayOfMonth : jsstring;
  month : jsstring;
  dayOfWeek : jsstring
}.

Definition parseCronExpression (expression : jsstring) : option ParsedCron :=
  let parts := split_ws (trim expression) in
  match parts with
  | [p0; p1; p2; p3; p4] =>
      Some {| second := None; minute := p0; hour := p1; dayOfMonth := p2;
              month := p3; dayOfWeek := p4 |}
  | [p0; p1; p2; p3; p4; p5] =>
      Some {| second := Some p0; minute := p1; hour := p2; dayOfMonth := p3;
              month := p4; dayOfWeek := p5 |}
  | _ => None
  end.

(** The tokens of the spec: the maximal runs of code units that are not white
    space, in order.  [cur] is the run being read, if any. *)
Fixpoint tokens_from (cur : option jsstring) (s : jsstring) : list jsstring :=
  match s with
  | [] => match cur with Some t => [t] | None => [] end
  | c :: r =>
      if isWhiteSpace c then
        match cur with
        | Some t => t :: tokens_from None r
        | None => tokens_from None r
        end
      else
        tokens_from (Some (match cur with Some t => t ++ [c] | None => [c] end)) r
  end.

Definition tokens (s : jsstring) : list jsstring := tokens_from None s.

(** A token is a non-empty run of code units that are not white space. *)
Definition is_token (t : jsstring) : Prop :=
  t <> [] /\ forallb (fun c => negb (isWhiteSpace c)) t = true.


(* ================================================================= *)
(** ** The field validator *)

Record ValidationResult := mkResult {
  valid : bool;
  error : option jsstring
}.

(** In [const [start, end] = array] a missing element is [undefined]; in the
    tests below ([isNaN], [<], [>], [>=], [<=]) [undefined] behaves as [NaN]
    does, which is what [nth _ _ NaN] gives. *)
Definition validateCronField (value : jsstring) (min max : Z) : ValidationResult :=
  if str_eqb value (js "*") then {| valid := true; error := None |}
  else if startsWith value (js "*/") then
    let step := parseInt (substring value 2) (Some 10) in
    if isNaN step || num_le step (Int 0) then
      {| valid := false; error := Some (js "Invalid step value") |}
    else {| valid := true; error := None |}
  else if includes value (js "-") then
    let parsed := List.map (fun v => parseInt v (Some 10)) (split value 45%N) in
    let start := nth 0 parsed NaN in
    let end_ := nth 1 parsed NaN in
    if isNaN start || isNaN end_ || num_lt start (Int min)
       || num_gt end_ (Int max) || num_gt start end_ then
      {| valid := false;
         error := Some (js "Range must be " ++ NumberToString min ++ js "-"
                        ++ NumberToString max) |}
    else {| valid := true; error := None |}
  else if includes value (js ",") then
    let values := List.map (fun v => parseInt v (Some 10)) (split value 44%N) in
    if existsb (fun v => isNaN v || num_lt v (Int min) || num_gt v (Int max)) values
    then
      {| valid := false;
         error := Some (js "Values must be " ++ NumberToString min ++ js "-"
                        ++ NumberToString max) |}
    else {| valid := true; error := None |}
  else
    let num := parseInt value (Some 10) in
    if isNaN num || num_lt num (Int min) || num_gt num (Int max) then
      {| valid := false;
         error := Some (js "Must be " ++ NumberToString min ++ js "-"
                        ++ NumberToString max) |}
    else {| valid := true; error := None |}.

(* ================================================================= *)
(** ** The description renderer *)

(** A template literal renders [undefined] by its name. *)
Definition tpl (o : option jsstring) : jsstring :=
  match o with Some s => s | None => js "undefined" end.

Definition describeField (value fieldName : jsstring) : jsstring :=
  if str_eqb value (js "*") then js "every " ++ fieldName
  else if startsWith value (js "*/") then
    let step := substring value 2 in
    js "every " ++ step ++ js " " ++ fieldName
    ++ (if num_gt (parseInt step None) (Int 1) then js "s" else [])
  else if includes value (js "-") then
    let parts := split value 45%N in
    fieldName ++ js "s " ++ tpl (nth_error parts 0) ++ js " through "
    ++ tpl (nth_error parts 1)
  else if includes value (js ",") then
    let values := split value 44%N in
    fieldName ++ js "s " ++ join values (js ", ")
  else fieldName ++ js " " ++ value.

Definition monthNames : list jsstring :=
  [js "January"; js "February"; js "March"; js "April"; js "May"; js "June";
   js "July"; js "August"; js "September"; js "October"; js "November";
   js "December"].

Definition dayNames : list jsstring :=
  [js "Sunday"; js "Monday"; js "Tuesday"; js "Wednesday"; js "Thursday";
   js "Friday"; js "Saturday"].

(** [table[n]] for an integer [n]: [undefined] outside the table *)
Definition index (table : list jsstring) (n : Z) : option jsstring :=
  if n <? 0 then None else nth_error table (Z.to_nat n).

(** Truthiness of a string: the empty string is falsy. *)
Definition truthy (s : jsstring) : bool :=
  match s with [] => false | _ => true end.

Definition secondPart (parsed : ParsedCron) : jsstring :=
  match second parsed with
  | Some s =>
      if truthy s && negb (str_eqb s (js "*"))
      then js "at " ++ describeField s (js "second")
      else []
  | None => []
  end.

Definition timePart (parsed : ParsedCron) : jsstring :=
  let timePart := secondPart parsed in
  let m := minute parsed in
  let h := hour parsed in
  if str_eqb m (js "*") && str_eqb h (js "*") then
    if truthy timePart then timePart ++ js ", every minute" else js "every minute"
  else if negb (str_eqb m (js "*")) && str_eqb h (js "*") then
    js "at " ++ describeField m (js "minute") ++ js " past every hour"
  else if str_eqb m (js "*") && negb (str_eqb h (js "*")) then
    js "every minute during " ++ describeField h (js "hour")
  else
    let hourDesc :=
      if includes h (js ",") || includes h (js "-") || includes h (js "/")
      then describeField h (js "hour")
      else padStart h 2 (js "0") in
    let minuteDesc :=
      if includes m (js ",") || includes m (js "-") || includes m (js "/")
      then describeField m (js "minute")
      else padStart m 2 (js "0") in
    js "at " ++ hourDesc ++ js ":" ++ minuteDesc.

(** The day-of-week names: each comma-separated token is looked up in
    [dayNames] when it parses, and kept as it is when it does not. *)
Definition dowDesc (parsed : ParsedCron) : jsstring :=
  join_opt
    (List.map (fun d =>
                 match parseInt d (Some 10) with
                 | NaN => Some d
                 | Int dayNum => index dayNames dayNum
                 end)
              (split (dayOfWeek parsed) 44%N))
    (js ", ").

Definition dayPart (parsed : ParsedCron) : jsstring :=
  let dom := dayOfMonth parsed in
  let dow := dayOfWeek parsed in
  if negb (str_eqb dom (js "*")) && negb (str_eqb dow (js "*")) then
    js "on " ++ describeField dom (js "day") ++ js " and " ++ dowDesc parsed
  else if negb (str_eqb dom (js "*")) then
    js "on " ++ describeField dom (js "day of month")
  else if negb (str_eqb dow (js "*")) then
    js "on " ++ dowDesc parsed
  else [].

Definition monthPart (parsed : ParsedCron) : jsstring :=
  if negb (str_eqb (month parsed) (js "*")) then
    let monthDesc :=
      join_opt
        (List.map (fun m =>
                     match parseInt m (Some 10) with
                     | NaN => Some m
                     | Int monthNum => index monthNames (monthNum - 1)
                     end)
                  (split (month parsed) 44%N))
        (js ", ") in
    js "in " ++ monthDesc
  else [].

(* ================================================================= *)
(** ** Matching one field *)

(** [value] is a component of a calendar date, an integer. *)
Definition matchesField (field : jsstring) (value : Z) : bool :=
  if str_eqb field (js "*") then true
  else if startsWith field (js "*/") then
    let step := parseInt (substring field 2) (Some 10) in
    num_strict_eq (num_rem (Int value) step) (Int 0)
  else if includes field (js "-") then
    let parsed := List.map (fun v => parseInt v (Some 10)) (split field 45%N) in
    let start := nth 0 parsed NaN in
    let end_ := nth 1 parsed NaN in
    num_ge (Int value) start && num_le (Int value) end_
  else if includes field (js ",") then
    let values := List.map (fun v => parseInt v (Some 10)) (split field 44%N) in
    array_includes values (Int value)
  else num_strict_eq (parseInt field (Some 10)) (Int value).


(* ================================================================= *)
(** ** Dates

    A [Date] is its time value, the milliseconds since the epoch in UTC.  The
    calendar functions are those of the language definition (ECMA-262, "Time
    Values and Time Range" and the sections after it). *)

Definition msPerDay : Z := 86400000.
Definition msPerHour : Z := 3600000.
Definition msPerMinute : Z := 60000.

Definition Day (t : Z) : Z := t / msPerDay.

Definition DaysInYear (y : Z) : Z :=
  if negb (y mod 4 =? 0) then 365
  else if negb (y mod 100 =? 0) then 366
  else if negb (y mod 400 =? 0) then 365
  else 366.

Definition DayFromYear (y : Z) : Z :=
  365 * (y - 1970) + (y - 1969) / 4 - (y - 1901) / 100 + (y - 1601) / 400.

Definition TimeFromYear (y : Z) : Z := msPerDay * DayFromYear y.

(** The largest year that starts at or before [t].  The quotient by the mean
    length of a year is off by one at most, and the comparison settles it. *)
Definition YearFromTime (t : Z) : Z :=
  let y := 1970 + (400 * Day t) / 146097 in
  if TimeFromYear (y + 1) <=? t then y + 1
  else if TimeFromYear y <=? t then y
  else y - 1.

Definition InLeapYear (t : Z) : Z :=
  if DaysInYear (YearFromTime t) =? 365 then 0 else 1.

Definition DayWithinYear (t : Z) : Z := Day t - DayFromYear (YearFromTime t).

Definition MonthFromTime (t : Z) : Z :=
  let d := DayWithinYear t in
  let l := InLeapYear t in
  if d <? 31 then 0
  else if d <? 59 + l then 1
  else if d <? 90 + l then 2
  else if d <? 120 + l then 3
  else if d <? 151 + l then 4
  else if d <? 181 + l then 5
  else if d <? 212 + l then 6
  else if d <? 243 + l then 7
  else if d <? 273 + l then 8
  else if d <? 304 + l then 9
  else if d <? 334 + l then 10
  else 11.

Definition DateFromTime (t : Z) : Z :=
  let d := DayWithinYear t in
  let l := InLeapYear t in
  match MonthFromTime t with
  | 0 => d + 1
  | 1 => d - 30
  | 2 => d - 58 - l
  | 3 => d - 89 - l
  | 4 => d - 119 - l
  | 5 => d - 150 - l
  | 6 => d - 180 - l
  | 7 => d - 211 - l
  | 8 => d - 242 - l
  | 9 => d - 272 - l
  | 10 => d - 303 - l
  | _ => d - 333 - l
  end.

Definition WeekDay (t : Z) : Z := (Day t + 4) mod 7.
Definition HourFromTime (t : Z) : Z := (t / msPerHour) mod 24.
Definition MinFromTime (t : Z) : Z := (t / msPerMinute) mod 60.

(** The default value of the parameter [count] *)
Definition countOrDefault (count : option Z) : Z :=
  match count with Some c => c | None => 5 end.

(** The first [n] instants after [now], one minute apart *)
Definition candidates (now : Z) (n : nat) : list Z :=
  List.map (fun k => now + 60000 * Z.of_nat k) (seq 1 n).

(** The state of the search loop of [getNextExecutions]: the counter [i],
    the candidate [current] and the array [dates]. *)
Record LoopState := mkLoop {
  st_i : Z;
  st_current : Z;
  st_dates : list Z
}.

Section Host.

(** The offset of local time from UTC at a given instant, in milliseconds *)
Variable LocalTZA : Z -> Z.

(** [String.prototype.toUpperCase] on one code unit outside ASCII *)
Variable upperCaseNonASCII : jschar -> jsstring.

Definition LocalTime (t : Z) : Z := t + LocalTZA t.

Definition getMinutes (t : Z) : Z := MinFromTime (LocalTime t).
Definition getHours (t : Z) : Z := HourFromTime (LocalTime t).
Definition getDate (t : Z) : Z := DateFromTime (LocalTime t).
Definition getMonth (t : Z) : Z := MonthFromTime (LocalTime t).
Definition getDay (t : Z) : Z := WeekDay (LocalTime t).

(** [toUpperCase] on a string of at most one code unit *)
Definition toUpperCase (s : jsstring) : jsstring :=
  match s with
  | [c] =>
      if (97 <=? c)%N && (c <=? 122)%N then [(c - 32)%N]
      else if (c <? 128)%N then [c]
      else upperCaseNonASCII c
  | _ => s
  end.

Definition describeCron (parsed : ParsedCron) : jsstring :=
  let description :=
    join (filter truthy [timePart parsed; dayPart parsed; monthPart parsed])
         (js " ") in
  toUpperCase (charAt description 0) ++ slice description 1.

(** Whether the five tested fields all match the instant [t]. *)
Definition matchesAll (parsed : ParsedCron) (t : Z) : bool :=
  matchesField (minute parsed) (getMinutes t)
  && matchesField (hour parsed) (getHours t)
  && matchesField (dayOfMonth parsed) (getDate t)
  && matchesField (month parsed) (getMonth t + 1)
  && matchesField (dayOfWeek parsed) (getDay t).

(** One turn of the loop body followed by [i++]. *)
Definition loop_body (parsed : ParsedCron) (st : LoopState) : LoopState :=
  let current := st_current st + 60000 in
  if negb (matchesField (minute parsed) (getMinutes current)) then
    {| st_i := st_i st + 1; st_current := current; st_dates := st_dates st |}
  else if negb (matchesField (hour parsed) (getHours current)) then
    {| st_i := st_i st + 1; st_current := current; st_dates := st_dates st |}
  else if negb (matchesField (dayOfMonth parsed) (getDate current)) then
    {| st_i := st_i st + 1; st_current := current; st_dates := st_dates st |}
  else if negb (matchesField (month parsed) (getMonth current + 1)) then
    {| st_i := st_i st + 1; st_current := current; st_dates := st_dates st |}
  else if negb (matchesField (dayOfWeek parsed) (getDay current)) then
    {| st_i := st_i st + 1; st_current := current; st_dates := st_dates st |}
  else
    {| st_i := st_i st + 1; st_current := current;
       st_dates := st_dates st ++ [current] |}.

(** [i < count * 100 && dates.length < count] *)
Definition loop_cond (count : Z) (st : LoopState) : bool :=
  (st_i st <? count * 100) && (Z.of_nat (List.length (st_dates st)) <? count).

Fixpoint loop_run (fuel : nat) (parsed : ParsedCron) (count : Z)
  (st : LoopState) : LoopState :=
  match fuel with
  | O => st
  | S fuel' =>
      if loop_cond count st
      then loop_run fuel' parsed count (loop_body parsed st)
      else st
  end.

(** The state in which the loop of [getNextExecutions] stops.  [now] is the
    reading of the clock by [new Date()]; [count = None] is the call that
    leaves the count to its default.  The counter grows by one each turn, so
    [count * 100] turns are all the loop can take. *)
Definition search (now : Z) (parsed : ParsedCron) (count : option Z)
  : LoopState :=
  let count := countOrDefault count in
  loop_run (Z.to_nat (count * 100)) parsed count
           {| st_i := 0; st_current := now; st_dates := [] |}.

Definition getNextExecutions (now : Z) (parsed : ParsedCron) (count : option Z)
  : list Z :=
  st_dates (search now parsed count).

End Host.

(** ** The module's exports

    The functions the module declares, and the names listed in the object of
    its [export default]. *)
Definition declared_functions : list string :=
  ["parseCronExpression"; "validateCronField"; "describeField";
   "describeCron"; "getNextExecutions"; "matchesField"]%string.

Definition default_export : list string := ["encode"; "decode"]%string.

(** ** Notions used to state further properties *)

(** [l1] is an initial segment of [l2]. *)
Definition prefix_of (l1 l2 : list Z) : Prop := exists rest, l2 = l1 ++ rest.

(** The record [parsed] with its [second] replaced *)
Definition withSecond (parsed : ParsedCron) (s : option jsstring) : ParsedCron :=
  {| second := s; minute := minute parsed; hour := hour parsed;
     dayOfMonth := dayOfMonth parsed; month := month parsed;
     dayOfWeek := dayOfWeek parsed |}.

(** The name at index [n] of a table, or the empty string that [join] puts
    for [undefined] *)
Definition nameOrEmpty (table : list jsstring) (n : Z) : jsstring :=
  match index table n with Some name => name | None => [] end.

(** The value of a decimal digit *)
Definition is_digit (d : Z) : Prop := 0 <= d < 10.

(** A numeral of at least two digits: a zero is put before a single one. *)
Definition twoDigits (n : Z) : jsstring :=
  if n <? 10 then 48%N :: NumberToString n else NumberToString n.

(** A comma-separated list of numerals, as in ["1,15,30"] *)
Definition numeralList (l : list Z) : jsstring :=
  join (List.map NumberToString l) (js ",").

(** A host whose local time is UTC and whose upper-case table leaves the
    code units outside ASCII alone; used to run the program on examples. *)
Definition UTC (t : Z) : Z := 0.
Definition upperCaseIdentity (c : jschar) : jsstring := [c].

(* ================================================================= *)
(** * Properties *)

(** ** Strings *)

Lemma str_eqb_eq (a b : jsstring) : str_eqb a b = true <-> a = b.
Proof.
  revert b; induction a as [|x a IH]; intros [|y b]; simpl; split;
    try congruence; try reflexivity.
  - intros H; apply andb_true_iff in H as [H1 H2].
    apply N.eqb_eq in H1; apply IH in H2; congruence.
  - intros H; injection H as -> ->.
    rewrite N.eqb_refl; simpl; now apply IH.
Qed.

Lemma str_eqb_refl (a : jsstring) : str_eqb a a = true.
Proof. now apply str_eqb_eq. Qed.

Lemma trimStart_head (s : jsstring) (c : jschar) (r : jsstring) :
  trimStart s = c :: r -> isWhiteSpace c = false.
Proof.
  induction s as [|x s IH]; simpl; [discriminate|].
  destruct (isWhiteSpace x) eqn:E; [exact IH|].
  intros H; injection H as -> _; exact E.
Qed.

Lemma trimEnd_cons (c : jschar) (r : jsstring) :
  isWhiteSpace c = false -> trimEnd (c :: r) = c :: trimEnd r.
Proof. intros E; simpl; rewrite E; now destruct (trimEnd r). Qed.

Lemma tokens_from_trimStart (s : jsstring) :
  tokens_from None (trimStart s) = tokens_from None s.
Proof.
  induction s as [|c s IH]; simpl; [reflexivity|].
  destruct (isWhiteSpace c) eqn:E; [exact IH|].
  simpl; now rewrite E.
Qed.

Lemma tokens_from_some (t s : jsstring) : tokens_from (Some t) s <> [].
Proof.
  revert t; induction s as [|c s IH]; intros t; simpl; [discriminate|].
  destruct (isWhiteSpace c); [discriminate|apply IH].
Qed.

(** Splitting a string without trailing white space: the pieces are the
    tokens. *)
Lemma split_ws_from_trimEnd (s : jsstring) :
  (forall tok, split_ws_from tok false (trimEnd s) = tokens_from (Some tok) s)
  /\ (trimEnd s <> [] -> split_ws_from [] true (trimEnd s) = tokens_from None s)
  /\ (trimEnd s = [] -> tokens_from None s = []).
Proof.
  induction s as [|c s (IH1 & IH2 & IH3)]; simpl.
  - repeat split; congruence.
  - destruct (trimEnd s) as [|x r] eqn:Et; destruct (isWhiteSpace c) eqn:Ec;
      simpl; rewrite ?Ec; repeat split; intros; try congruence;
      rewrite <- ?IH1, <- ?IH2, ?IH3 by congruence; reflexivity.
Qed.

Lemma split_ws_trim (expression : jsstring) :
  split_ws (trim expression) =
  match tokens expression with [] => [[]] | l => l end.
Proof.
  unfold split_ws, trim, tokens.
  rewrite <- tokens_from_trimStart.
  destruct (trimStart expression) as [|c r] eqn:E; [reflexivity|].
  pose proof (trimStart_head _ _ _ E) as Ec.
  rewrite (trimEnd_cons c r Ec).
  simpl; rewrite Ec.
  destruct (split_ws_from_trimEnd r) as (H1 & _).
  rewrite H1.
  pose proof (tokens_from_some [c] r).
  destruct (tokens_from (Some [c]) r); [congruence|reflexivity].
Qed.

Lemma tokens_from_are_tokens (cur : option jsstring) (s : jsstring) :
  (forall t, cur = Some t -> is_token t) -> Forall is_token (tokens_from cur s).
Proof.
  revert cur; induction s as [|c s IH]; intros cur Hcur; simpl.
  - destruct cur; auto.
  - destruct (isWhiteSpace c) eqn:Ec.
    + destruct cur; [constructor; auto|]; apply IH; discriminate.
    + apply IH; intros t [= <-].
      destruct cur as [t0|].
      * destruct (Hcur t0 eq_refl) as [_ Hall]; split.
        -- now destruct t0.
        -- rewrite forallb_app, Hall; simpl; now rewrite Ec.
      * split; [discriminate|]; simpl; now rewrite Ec.
Qed.

Lemma tokens_are_tokens (s : jsstring) : Forall is_token (tokens s).
Proof. apply tokens_from_are_tokens; discriminate. Qed.

(** ** The expression splitter *)

(** C1: [parseCronExpression] returns a value exactly when the trimmed
    expression splits on white space into 5 or 6 pieces, and [null]
    otherwise.  With 5 pieces there is no [second] and the pieces are, in
    order, minute, hour, dayOfMonth, month and dayOfWeek; with 6 pieces the
    first is [second] and the other five follow in the same order.  In both
    cases the pieces are the tokens of the expression: its maximal runs of
    code units that are not white space. *)
Theorem parseCronExpression_token_count (expression : jsstring) :
  let parts := split_ws (trim expression) in
  ((exists parsed, parseCronExpression expression = Some parsed) <->
   (List.length parts = 5%nat \/ List.length parts = 6%nat))
  /\ (List.length parts <> 5%nat -> List.length parts <> 6%nat ->
      parseCronExpression expression = None)
  /\ (List.length parts = 5%nat ->
      parseCronExpression expression =
      Some {| second := None;
              minute := nth 0 parts [];
              hour := nth 1 parts [];
              dayOfMonth := nth 2 parts [];
              month := nth 3 parts [];
              dayOfWeek := nth 4 parts [] |})
  /\ (List.length parts = 6%nat ->
      parseCronExpression expression =
      Some {| second := Some (nth 0 parts []);
              minute := nth 1 parts [];
              hour := nth 2 parts [];
              dayOfMonth := nth 3 parts [];
              month := nth 4 parts [];
              dayOfWeek := nth 5 parts [] |})
  /\ (List.length parts = 5%nat \/ List.length parts = 6%nat ->
      parts = tokens expression /\ Forall is_token parts).
Proof.
  intros parts.
  assert (Htok : List.length parts = 5%nat \/ List.length parts = 6%nat ->
                 parts = tokens expression /\ Forall is_token parts).
  { intros H. assert (parts = tokens expression) as E.
    { subst parts. rewrite split_ws_trim in *.
      destruct (tokens expression); [simpl in H; lia|reflexivity]. }
    split; [exact E|rewrite E; apply tokens_are_tokens]. }
  unfold parseCronExpression; fold parts.
  clearbody parts.
  destruct parts as [|p0 [|p1 [|p2 [|p3 [|p4 [|p5 [|p6 parts]]]]]]];
    simpl in *; (split; [split; [intros [? ?]; try discriminate; lia
                               |intros [?|?]; try discriminate; eauto]|]);
    (split; [intros; try reflexivity; lia|]);
    (split; [intros; try reflexivity; lia|]);
    (split; [intros; try reflexivity; lia|]); exact Htok.
Qed.

(** The theorem at the expression ["0 9 * * 1-5"] and at a 6-field one. *)
Lemma parseCronExpression_token_count_witness :
  parseCronExpression (js "0 9 * * 1-5") =
    Some {| second := None; minute := js "0"; hour := js "9";
            dayOfMonth := js "*"; month := js "*"; dayOfWeek := js "1-5" |}
  /\ parseCronExpression (js " 30 0 9 * *  1 ") =
    Some {| second := Some (js "30"); minute := js "0"; hour := js "9";
            dayOfMonth := js "*"; month := js "*"; dayOfWeek := js "1" |}
  /\ parseCronExpression (js "0 9 * *") = None.
Proof.
  split; [|split].
  - apply (proj1 (proj2 (proj2 (parseCronExpression_token_count (js "0 9 * * 1-5"))))).
    reflexivity.
  - apply (proj1 (proj2 (proj2 (proj2
             (parseCronExpression_token_count (js " 30 0 9 * *  1 ")))))).
    reflexivity.
  - apply (proj1 (proj2 (parseCronExpression_token_count (js "0 9 * *"))));
      vm_compute; discriminate.
Defined.

(** ** The field validator *)

Lemma includes_one (s : jsstring) (c : jschar) :
  includes s [c] = existsb (fun x => N.eqb x c) s.
Proof.
  induction s as [|x s IH]; simpl; [reflexivity|].
  now rewrite IH, andb_true_r.
Qed.

Lemma split_from_nonempty (sep : jschar) (s tok : jsstring) :
  (1 <= List.length (split_from sep tok s))%nat.
Proof.
  revert tok; induction s as [|x s IH]; intros tok; simpl; [lia|].
  destruct (N.eqb x sep); simpl; [lia|apply IH].
Qed.

Lemma split_from_length (sep : jschar) (s tok : jsstring) :
  existsb (fun x => N.eqb x sep) s = true ->
  (2 <= List.length (split_from sep tok s))%nat.
Proof.
  revert tok; induction s as [|x s IH]; intros tok; simpl; [discriminate|].
  destruct (N.eqb x sep); simpl.
  - intros _. pose proof (split_from_nonempty sep s []). lia.
  - apply IH.
Qed.

Lemma star_not_step (value : jsstring) :
  startsWith value (js "*/") = true -> str_eqb value (js "*") = false.
Proof.
  change (js "*/") with [42%N; 47%N]; change (js "*") with [42%N].
  destruct value as [|a [|b r]]; simpl; try discriminate.
  - now rewrite andb_false_r.
  - now rewrite andb_false_r.
Qed.


Lemma nth_parsed (pieces : list jsstring) (k : nat) :
  nth k (List.map (fun v => parseInt v (Some 10)) pieces) NaN =
  parseInt (nth k pieces []) (Some 10).
Proof.
  change NaN with ((fun v => parseInt v (Some 10)) []) at 1.
  apply map_nth.
Qed.

(** C5: a value that is not ["*"], does not start with ["*/"] and contains
    ["-"] is validated as a range, whether or not it also contains [","].
    With [start] and [end] the integers parsed from the first two pieces
    between dashes, it is valid exactly when both parse, [start >= min],
    [end <= max] and [start <= end]; otherwise the error is "Range must be
    min-max".  ["10-5"] is invalid on 0-59, and ["1-5,99"], which as a list
    would be out of 0-59, is valid as the range from 1 to 5.  The bounds
    [min] and [max] are integers that a number holds exactly. *)
Theorem validateCronField_range :
  (forall (value : jsstring) (min max : Z),
     safeInteger min -> safeInteger max ->
     str_eqb value (js "*") = false ->
     startsWith value (js "*/") = false ->
     includes value (js "-") = true ->
     let pieces := split value 45%N in
     let start := parseInt (nth 0 pieces []) (Some 10) in
     let end_ := parseInt (nth 1 pieces []) (Some 10) in
     (2 <= List.length pieces)%nat
     /\ (valid (validateCronField value min max) = true <->
         exists s e, start = Int s /\ end_ = Int e
                     /\ min <= s /\ e <= max /\ s <= e)
     /\ validateCronField value min max =
        if valid (validateCronField value min max)
        then {| valid := true; error := None |}
        else {| valid := false;
                error := Some (js "Range must be " ++ NumberToString min
                               ++ js "-" ++ NumberToString max) |})
  /\ validateCronField (js "10-5") 0 59 =
     {| valid := false; error := Some (js "Range must be 0-59") |}
  /\ validateCronField (js "1-5,99") 0 59 = {| valid := true; error := None |}
  /\ validateCronField (js "1,99") 0 59 =
     {| valid := false; error := Some (js "Values must be 0-59") |}.
Proof.
  split; [|repeat split; reflexivity].
  intros value min max _ _ Hstar Hstep Hdash pieces start end_.
  split.
  { unfold pieces, split. apply split_from_length.
    rewrite <- includes_one. exact Hdash. }
  unfold validateCronField.
  rewrite Hstar, Hstep, Hdash.
  rewrite !nth_parsed. fold pieces. fold start. fold end_.
  destruct start as [|s], end_ as [|e]; simpl.
  - split; [|reflexivity]. split; [discriminate|]. intros (? & ? & ? & _); discriminate.
  - split; [|reflexivity]. split; [discriminate|]. intros (? & ? & ? & _); discriminate.
  - split; [|reflexivity]. split; [discriminate|]. intros (? & ? & _ & ? & _); discriminate.
  - unfold num_gt; simpl.
    destruct (s <? min) eqn:E1; destruct (max <? e) eqn:E2;
      destruct (e <? s) eqn:E3; simpl;
      (split; [|reflexivity]);
      (split; [try discriminate; intros _; exists s, e; repeat split; lia
              |intros (s' & e' & [= <-] & [= <-] & ? & ? & ?); try reflexivity; lia]).
Qed.

Lemma validateCronField_range_witness :
  valid (validateCronField (js "1-5,99") 0 59) = true.
Proof.
  apply (proj1 (proj2 (proj1 validateCronField_range (js "1-5,99") 0 59
                         eq_refl eq_refl eq_refl eq_refl eq_refl))).
  exists 1, 5. repeat split; lia.
Defined.

(** C6: a value that starts with ["*/"] is valid exactly when what follows
    parses as an integer greater than 0, whatever [min] and [max] are, and is
    otherwise rejected with "Invalid step value".  ["*/0"] and ["*/-1"] are
    rejected on 0-59 and ["*/1000"] is accepted there. *)
Theorem validateCronField_step :
  (forall (value : jsstring) (min max : Z),
     startsWith value (js "*/") = true ->
     let step := parseInt (substring value 2) (Some 10) in
     (valid (validateCronField value min max) = true <->
      exists n, step = Int n /\ 0 < n)
     /\ validateCronField value min max =
        (if valid (validateCronField value min max)
         then {| valid := true; error := None |}
         else {| valid := false; error := Some (js "Invalid step value") |})
     /\ (forall min' max',
           validateCronField value min' max' = validateCronField value min max))
  /\ validateCronField (js "*/0") 0 59 =
     {| valid := false; error := Some (js "Invalid step value") |}
  /\ validateCronField (js "*/-1") 0 59 =
     {| valid := false; error := Some (js "Invalid step value") |}
  /\ validateCronField (js "*/1000") 0 59 = {| valid := true; error := None |}.
Proof.
  split; [|repeat split; reflexivity].
  intros value min max Hstep step.
  pose proof (star_not_step value Hstep) as Hstar.
  unfold validateCronField. rewrite Hstar, Hstep. fold step.
  destruct step as [|n]; simpl.
  - repeat split; try discriminate. intros (? & ? & _); discriminate.
  - destruct (n <=? 0) eqn:E; simpl; repeat split; try discriminate;
      try (intros (n' & [= <-] & ?); lia).
    intros _; exists n; split; [reflexivity|lia].
Qed.

Lemma validateCronField_step_witness :
  valid (validateCronField (js "*/1000") 0 59) = true.
Proof.
  apply (proj1 (proj1 validateCronField_step (js "*/1000") 0 59 eq_refl)).
  exists 1000. split; [reflexivity|lia].
Defined.

(** ** Numerals *)

Lemma digit_char_facts (d : Z) :
  0 <= d < 10 ->
  isWhiteSpace (digit_char d) = false
  /\ digit_value (digit_char d) = Some d
  /\ N.eqb (digit_char d) 45 = false
  /\ N.eqb (digit_char d) 43 = false.
Proof.
  intros H.
  assert (d = 0 \/ d = 1 \/ d = 2 \/ d = 3 \/ d = 4 \/ d = 5 \/ d = 6 \/ d = 7
          \/ d = 8 \/ d = 9) as Hd by lia.
  repeat (destruct Hd as [-> | Hd]); try subst d; repeat split; reflexivity.
Qed.

Lemma radix_prefix_digits (ds : list Z) :
  Forall (fun d => 0 <= d < 10) ds ->
  radix_prefix 10 (List.map digit_char ds) = ds.
Proof.
  induction 1 as [|d ds Hd _ IH]; simpl; [reflexivity|].
  destruct (digit_char_facts d Hd) as (_ & -> & _).
  replace (d <? 10) with true by (symmetry; apply Z.ltb_lt; lia).
  now rewrite IH.
Qed.

Lemma digits_of_S (fuel : nat) (n : Z) (acc : jsstring) :
  digits_of (S fuel) n acc =
  if n <? 10 then digit_char (n mod 10) :: acc
  else digits_of fuel (n / 10) (digit_char (n mod 10) :: acc).
Proof. reflexivity. Qed.

Lemma digits_of_spec (fuel : nat) :
  forall (n : Z) (acc : jsstring),
    0 <= n < 2 ^ Z.of_nat fuel -> fuel <> O ->
    exists ds, ds <> [] /\ Forall (fun d => 0 <= d < 10) ds
               /\ digits_of fuel n acc = List.map digit_char ds ++ acc
               /\ digits_value 10 ds = n.
Proof.
  induction fuel as [|fuel IH]; intros n acc Hn Hfuel.
  - congruence.
  - rewrite digits_of_S.
    destruct (n <? 10) eqn:E.
    + apply Z.ltb_lt in E. exists [n]. repeat split.
      * discriminate.
      * constructor; [lia|constructor].
      * simpl. rewrite Z.mod_small by lia. reflexivity.
    + apply Z.ltb_ge in E.
      assert (0 <= n / 10 < 2 ^ Z.of_nat fuel) as Hq.
      { rewrite Nat2Z.inj_succ, Z.pow_succ_r in Hn by lia.
        split; [apply Z.div_pos; lia|].
        apply Z.div_lt_upper_bound; lia. }
      assert (fuel <> O) as Hf.
      { intros ->. simpl in Hq. pose proof (Z.div_le_lower_bound n 10 1). lia. }
      destruct (IH (n / 10) (digit_char (n mod 10) :: acc) Hq Hf)
        as (ds & Hne & Hall & Heq & Hval).
      exists (ds ++ [n mod 10]). repeat split.
      * intros H; apply app_eq_nil in H as [_ H]; discriminate.
      * apply Forall_app; split; [exact Hall|].
        constructor; [|constructor]. apply Z.mod_pos_bound; lia.
      * rewrite Heq, map_app, <- app_assoc. reflexivity.
      * unfold digits_value in *. rewrite fold_left_app, Hval. simpl.
        pose proof (Z.div_mod n 10). lia.
Qed.

(** [parseInt] in radix 10 on a string that starts with neither white
    space nor a sign, and on one that starts with a minus sign. *)
Lemma parseInt_10_plain (c : jschar) (r : jsstring) :
  isWhiteSpace c = false -> N.eqb c 45 = false -> N.eqb c 43 = false ->
  parseInt (c :: r) (Some 10) =
  match radix_prefix 10 (c :: r) with
  | [] => NaN
  | ds => Int (digits_value 10 ds)
  end.
Proof.
  intros Hw Hm Hp. unfold parseInt.
  cbn -[radix_prefix digits_value isWhiteSpace N.eqb Z.mul].
  rewrite Hw, Hm, Hp.
  cbn -[radix_prefix digits_value isWhiteSpace N.eqb Z.mul].
  destruct (radix_prefix 10 (c :: r)); [reflexivity|].
  f_equal. lia.
Qed.

Lemma parseInt_10_minus (r : jsstring) :
  parseInt (45%N :: r) (Some 10) =
  match radix_prefix 10 r with
  | [] => NaN
  | ds => Int (- digits_value 10 ds)
  end.
Proof.
  unfold parseInt.
  cbn -[radix_prefix digits_value Z.mul].
  destruct (radix_prefix 10 r); reflexivity.
Qed.

Lemma parseInt_digits (ds : list Z) :
  ds <> [] -> Forall (fun d => 0 <= d < 10) ds ->
  parseInt (List.map digit_char ds) (Some 10) = Int (digits_value 10 ds)
  /\ parseInt (45%N :: List.map digit_char ds) (Some 10)
     = Int (- digits_value 10 ds).
Proof.
  intros Hne Hall.
  pose proof (radix_prefix_digits ds Hall) as Hp.
  rewrite parseInt_10_minus, Hp.
  destruct ds as [|d ds]; [congruence|].
  split; [|reflexivity].
  inversion Hall as [|? ? Hd _]; subst.
  destruct (digit_char_facts d Hd) as (Hw & Hv & Hm & Hpl).
  cbn [List.map] in *.
  rewrite parseInt_10_plain, Hp by assumption.
  reflexivity.
Qed.

(** Reading back the numeral of an integer gives the integer. *)
Lemma parseInt_NumberToString (n : Z) :
  parseInt (NumberToString n) (Some 10) = Int n.
Proof.
  unfold NumberToString.
  destruct (n <? 0) eqn:E.
  - apply Z.ltb_lt in E.
    destruct (digits_of_spec (S (Z.to_nat (Z.log2 (- n)))) (- n) [])
      as (ds & Hne & Hall & Heq & Hval).
    { rewrite Nat2Z.inj_succ, Z2Nat.id by apply Z.log2_nonneg.
      pose proof (Z.log2_spec (- n)). lia. }
    { discriminate. }
    rewrite Heq, app_nil_r.
    rewrite (proj2 (parseInt_digits ds Hne Hall)), Hval. f_equal; lia.
  - apply Z.ltb_ge in E.
    destruct (digits_of_spec (S (Z.to_nat (Z.log2 n))) n [])
      as (ds & Hne & Hall & Heq & Hval).
    { rewrite Nat2Z.inj_succ, Z2Nat.id by apply Z.log2_nonneg.
      destruct (Z.eq_dec n 0) as [->|]; [simpl; lia|].
      pose proof (Z.log2_spec n). lia. }
    { discriminate. }
    rewrite Heq, app_nil_r.
    rewrite (proj1 (parseInt_digits ds Hne Hall)), Hval. reflexivity.
Qed.

(** ** Matching one field *)

Lemma sameValueZero_Int (e : num) (v : Z) :
  sameValueZero e (Int v) = true <-> e = Int v.
Proof.
  destruct e as [|x]; simpl; split; try discriminate.
  - intros H; apply Z.eqb_eq in H; now subst.
  - intros [= ->]; apply Z.eqb_refl.
Qed.

Lemma matchesField_step_eq (rest : jsstring) (value : Z) :
  matchesField (js "*/" ++ rest) value =
  num_strict_eq (num_rem (Int value) (parseInt rest (Some 10))) (Int 0).
Proof. reflexivity. Qed.

(** C7: on a step field ["*/n"] with n > 0, [matchesField] is true exactly
    when [value % n] is 0, the remainder of the value itself and not of its
    distance to the field's minimum.  This holds for whatever follows ["*/"]
    and parses as n, in particular for the numeral of n, and for every
    value that a number holds exactly.  Among the days of month 1-31,
    ["*/5"] matches 5, 10, 15, 20, 25 and 30. *)
Theorem matchesField_step :
  (forall (rest : jsstring) (n value : Z),
     safeInteger value ->
     parseInt rest (Some 10) = Int n -> 0 < n ->
     matchesField (js "*/" ++ rest) value = (Z.rem value n =? 0))
  /\ (forall n value : Z,
        safeInteger value ->
        0 < n ->
        matchesField (js "*/" ++ NumberToString n) value = (Z.rem value n =? 0))
  /\ filter (matchesField (js "*/5")) (List.map Z.of_nat (seq 1 31))
     = [5; 10; 15; 20; 25; 30].
Proof.
  assert (forall rest n value,
            parseInt rest (Some 10) = Int n -> 0 < n ->
            matchesField (js "*/" ++ rest) value = (Z.rem value n =? 0)) as H.
  { intros rest n value Hp Hn.
    rewrite matchesField_step_eq, Hp. simpl.
    destruct (n =? 0) eqn:E; [apply Z.eqb_eq in E; lia|reflexivity]. }
  split; [intros rest n value _; apply H|split].
  - intros n value _ Hn. apply H; [apply parseInt_NumberToString|exact Hn].
  - reflexivity.
Qed.

Lemma matchesField_step_witness :
  matchesField (js "*/5") 10 = true /\ matchesField (js "*/5") 6 = false.
Proof.
  split.
  - apply (proj1 (proj2 matchesField_step) 5 10);
      [unfold safeInteger; simpl; lia|lia].
  - apply (proj1 matchesField_step (js "5") 5 6);
      [unfold safeInteger; simpl; lia|reflexivity|lia].
Defined.

(** ** Dates *)

(** [YearFromTime] is the year whose span of days holds the day of [t]. *)
Lemma YearFromTime_spec (t : Z) :
  DayFromYear (YearFromTime t) <= Day t < DayFromYear (YearFromTime t + 1).
Proof.
  unfold YearFromTime, TimeFromYear, Day, DayFromYear, msPerDay.
  repeat match goal with
         | |- context [?a <=? ?b] => destruct (Z.leb_spec a b)
         end; Z.div_mod_to_equations; lia.
Qed.

Lemma DaysInYear_spec (y : Z) :
  DaysInYear y = DayFromYear (y + 1) - DayFromYear y.
Proof.
  unfold DaysInYear, DayFromYear.
  repeat match goal with
         | |- context [?a =? ?b] => destruct (Z.eqb_spec a b); simpl negb; cbv iota
         end; Z.div_mod_to_equations; lia.
Qed.

Lemma InLeapYear_range (t : Z) : InLeapYear t = 0 \/ InLeapYear t = 1.
Proof. unfold InLeapYear. destruct (_ =? _); auto. Qed.

Lemma DayWithinYear_range (t : Z) :
  0 <= DayWithinYear t < 365 + InLeapYear t.
Proof.
  pose proof (YearFromTime_spec t) as H.
  pose proof (DaysInYear_spec (YearFromTime t)) as Hd.
  unfold DayWithinYear, InLeapYear.
  destruct (Z.eqb_spec (DaysInYear (YearFromTime t)) 365) as [E|E]; [lia|].
  assert (DaysInYear (YearFromTime t) = 366); [|lia].
  revert E. clear. unfold DaysInYear.
  repeat (destruct (_ =? _); simpl); congruence.
Qed.

(** The calendar components stay in their ranges, and February has at most
    29 days. *)
Lemma calendar_ranges (t : Z) :
  0 <= MonthFromTime t <= 11
  /\ 1 <= DateFromTime t <= 31
  /\ (MonthFromTime t = 1 -> DateFromTime t <= 29)
  /\ 0 <= WeekDay t <= 6
  /\ 0 <= HourFromTime t <= 23
  /\ 0 <= MinFromTime t <= 59.
Proof.
  pose proof (DayWithinYear_range t) as Hd.
  pose proof (InLeapYear_range t) as Hl.
  unfold DateFromTime, MonthFromTime, WeekDay, HourFromTime, MinFromTime.
  set (d := DayWithinYear t) in *. set (l := InLeapYear t) in *.
  repeat match goal with
         | |- context [?a <? ?b] => destruct (Z.ltb_spec a b)
         end;
    repeat split; try lia;
    try (apply Z.mod_pos_bound; lia);
    try (match goal with |- _ mod ?m <= _ =>
           pose proof (Z.mod_pos_bound (Day t + 4) m);
           pose proof (Z.mod_pos_bound (t / msPerHour) m);
           pose proof (Z.mod_pos_bound (t / msPerMinute) m); lia end).
Qed.

(** ** The occurrence simulator *)

Section Simulator.

Variable LocalTZA : Z -> Z.

(** The chain of [continue] statements appends the candidate exactly when
    the five fields match it. *)
Lemma loop_body_eq (parsed : ParsedCron) (st : LoopState) :
  loop_body LocalTZA parsed st =
  {| st_i := st_i st + 1;
     st_current := st_current st + 60000;
     st_dates := st_dates st ++
                 (if matchesAll LocalTZA parsed (st_current st + 60000)
                  then [st_current st + 60000] else []) |}.
Proof.
  unfold loop_body, matchesAll.
  repeat match goal with
         | |- context [matchesField ?f ?v] => destruct (matchesField f v)
         end; simpl; rewrite ?app_nil_r; reflexivity.
Qed.

Lemma candidates_S (now : Z) (n : nat) :
  candidates now (S n) = (now + 60000) :: candidates (now + 60000) n.
Proof.
  unfold candidates. cbn [seq List.map]. f_equal.
  rewrite <- seq_shift, map_map. apply map_ext. intros k. lia.
Qed.

Lemma candidates_snoc (now : Z) (n : nat) :
  candidates now (S n) = candidates now n ++ [now + 60000 * Z.of_nat (S n)].
Proof.
  unfold candidates. rewrite seq_S, map_app. reflexivity.
Qed.

(** The loop, started in any state with [fuel] turns left before the
    ceiling: where it stops and what it has collected. *)
Lemma loop_run_spec (parsed : ParsedCron) (count : Z) (fuel : nat) :
  forall st : LoopState,
    fuel = Z.to_nat (count * 100 - st_i st) ->
    let r := loop_run LocalTZA fuel parsed count st in
    exists turns : nat,
      (turns <= fuel)%nat
      /\ st_i r = st_i st + Z.of_nat turns
      /\ st_current r = st_current st + 60000 * Z.of_nat turns
      /\ st_dates r = st_dates st ++
                      filter (matchesAll LocalTZA parsed)
                             (candidates (st_current st) turns)
      /\ st_dates r = st_dates st ++
                      firstn (Z.to_nat (count - Z.of_nat (List.length (st_dates st))))
                             (filter (matchesAll LocalTZA parsed)
                                     (candidates (st_current st) fuel))
      /\ loop_cond count r = false.
Proof.
  induction fuel as [|fuel IH]; intros st Hfuel r; subst r; cbn [loop_run].
  - exists O. cbn [candidates seq List.map filter Z.of_nat].
    rewrite Z.mul_0_r, !Z.add_0_r, firstn_nil, app_nil_r.
    repeat split; try lia.
    unfold loop_cond. replace (st_i st <? count * 100) with false; [reflexivity|].
    symmetry; apply Z.ltb_ge; lia.
  - destruct (loop_cond count st) eqn:Hc.
    + unfold loop_cond in Hc. apply andb_true_iff in Hc as [Hi Hl].
      apply Z.ltb_lt in Hi, Hl.
      destruct (IH (loop_body LocalTZA parsed st)) as (turns & Ht & H1 & H2 & H3 & H4 & H5).
      { rewrite loop_body_eq; simpl. lia. }
      exists (S turns).
      rewrite loop_body_eq in H1, H2, H3, H4, H5 |- *.
      cbn [st_i st_current st_dates] in *.
      rewrite !candidates_S. cbn [filter].
      split; [lia|]. split; [lia|]. split; [lia|].
      split; [|split; [|exact H5]].
      * rewrite H3, <- app_assoc. f_equal.
        destruct (matchesAll _ _ _); reflexivity.
      * rewrite H4, <- app_assoc. f_equal.
        destruct (matchesAll _ _ _).
        -- replace (Z.to_nat (count - Z.of_nat (List.length (st_dates st))))
             with (S (Z.to_nat (count - Z.of_nat (List.length (st_dates st)) - 1)))
             by lia.
           rewrite length_app. cbn [app firstn List.length].
           do 3 f_equal. lia.
        -- rewrite app_nil_r. reflexivity.
    + exists O. cbn [candidates seq List.map filter Z.of_nat].
      rewrite Z.mul_0_r, !Z.add_0_r, app_nil_r.
      repeat split; try lia; try exact Hc.
      unfold loop_cond in Hc. apply andb_false_iff in Hc as [Hc|Hc];
        apply Z.ltb_ge in Hc; [lia|].
      replace (Z.to_nat (count - Z.of_nat (List.length (st_dates st)))) with O by lia.
      simpl. now rewrite app_nil_r.
Qed.

(** The search as a whole. *)
Lemma search_spec (now : Z) (parsed : ParsedCron) (count : option Z) :
  let c := countOrDefault count in
  let r := search LocalTZA now parsed count in
  exists turns : nat,
    (turns <= Z.to_nat (c * 100))%nat
    /\ st_i r = Z.of_nat turns
    /\ st_current r = now + 60000 * Z.of_nat turns
    /\ st_dates r = filter (matchesAll LocalTZA parsed) (candidates now turns)
    /\ st_dates r = firstn (Z.to_nat c)
                           (filter (matchesAll LocalTZA parsed)
                                   (candidates now (Z.to_nat (c * 100))))
    /\ loop_cond c r = false.
Proof.
  intros c r. unfold r, search. fold c.
  destruct (loop_run_spec parsed c (Z.to_nat (c * 100))
              {| st_i := 0; st_current := now; st_dates := [] |})
    as (turns & Ht & H1 & H2 & H3 & H4 & H5).
  { simpl. f_equal. lia. }
  exists turns. simpl in *. rewrite Z.sub_0_r in H4.
  repeat split; assumption.
Qed.




Lemma filter_none (f : Z -> bool) (l : list Z) :
  (forall t, f t = false) -> filter f l = [].
Proof.
  intros H. induction l as [|x l IH]; simpl; [reflexivity|].
  now rewrite H.
Qed.


Lemma getNextExecutions_firstn (now : Z) (parsed : ParsedCron) (count : option Z) :
  getNextExecutions LocalTZA now parsed count =
  firstn (Z.to_nat (countOrDefault count))
         (filter (matchesAll LocalTZA parsed)
                 (candidates now (Z.to_nat (countOrDefault count * 100)))).
Proof.
  destruct (search_spec now parsed count) as (turns & _ & _ & _ & _ & H & _).
  exact H.
Qed.






End Simulator.




(** ** The description renderer *)

Lemma split_from_no_sep (sep : jschar) (s tok : jsstring) :
  existsb (fun x => N.eqb x sep) s = false ->
  split_from sep tok s = [tok ++ s].
Proof.
  revert tok; induction s as [|x s IH]; intros tok; simpl.
  - now rewrite app_nil_r.
  - destruct (N.eqb x sep); simpl; [discriminate|].
    intros H. rewrite IH by exact H. now rewrite <- app_assoc.
Qed.

Lemma index_dayNames_outside (n : Z) :
  n < 0 \/ 6 < n -> index dayNames n = None.
Proof.
  intros H. unfold index.
  destruct (Z.ltb_spec n 0) as [|Hn]; [reflexivity|].
  apply nth_error_None. simpl. lia.
Qed.

Section Renderer.

Variable upperCaseNonASCII : jschar -> jsstring.

(** C2, as the code has it: the description of ["0 9 * * 1-5"], parsed in
    its 5-field form, begins with "At 09:00", which is the time fragment
    "at 09:00" with its first letter in upper case (so that "at 09:00" in
    lower case does not occur), and goes on with " on " and the day
    fragment. *)
Theorem describeCron_weekdays :
  exists parsed,
    parseCronExpression (js "0 9 * * 1-5") = Some parsed
    /\ second parsed = None
    /\ timePart parsed = js "at 09:00"
    /\ startsWith (describeCron upperCaseNonASCII parsed) (js "At 09:00 on ") = true
    /\ includes (describeCron upperCaseNonASCII parsed) (js "at 09:00") = false.
Proof.
  eexists. split; [reflexivity|]. repeat split.
Qed.

(** C10, as the code has it: when dayOfMonth is ["*"] and dayOfWeek is one
    token that parses to an integer outside 0-6, the lookup in [dayNames]
    gives [undefined], which [join] renders as the empty string.  The day
    fragment is then "on " and nothing else: neither a day name, nor the
    token, nor the word "undefined".  For ["0 9 * * 7"] the sentence is
    "At 09:00 on ". *)
Theorem describeCron_day_out_of_table :
  (forall (parsed : ParsedCron) (n : Z),
     dayOfMonth parsed = js "*" ->
     includes (dayOfWeek parsed) (js ",") = false ->
     parseInt (dayOfWeek parsed) (Some 10) = Int n ->
     n < 0 \/ 6 < n ->
     dowDesc parsed = []
     /\ dayPart parsed = js "on "
     /\ describeCron upperCaseNonASCII parsed =
        let description :=
          join (filter truthy [timePart parsed; js "on "; monthPart parsed])
               (js " ") in
        toUpperCase upperCaseNonASCII (charAt description 0)
        ++ slice description 1)
  /\ (exists parsed,
        parseCronExpression (js "0 9 * * 7") = Some parsed
        /\ describeCron upperCaseNonASCII parsed = js "At 09:00 on "
        /\ includes (describeCron upperCaseNonASCII parsed) (js "undefined")
           = false).
Proof.
  split.
  - intros parsed n Hdom Hcomma Hparse Hn.
    assert (dowDesc parsed = []) as Hdow.
    { unfold dowDesc, split.
      rewrite split_from_no_sep by (rewrite <- includes_one; exact Hcomma).
      cbn [List.map app]. rewrite Hparse, index_dayNames_outside by exact Hn.
      reflexivity. }
    assert (dayPart parsed = js "on ") as Hday.
    { unfold dayPart. rewrite Hdom, Hdow.
      replace (str_eqb (dayOfWeek parsed) (js "*")) with false.
      - reflexivity.
      - symmetry. destruct (str_eqb (dayOfWeek parsed) (js "*")) eqn:E;
          [|reflexivity].
        apply str_eqb_eq in E. rewrite E in Hparse. discriminate. }
    split; [exact Hdow|]. split; [exact Hday|].
    unfold describeCron. rewrite Hday. reflexivity.
  - eexists. split; [reflexivity|]. split; reflexivity.
Qed.

End Renderer.

Lemma describeCron_day_out_of_table_witness :
  dayPart {| second := None; minute := js "0"; hour := js "9";
             dayOfMonth := js "*"; month := js "*"; dayOfWeek := js "7" |}
  = js "on ".
Proof.
  apply (proj1 (describeCron_day_out_of_table upperCaseIdentity)
           {| second := None; minute := js "0"; hour := js "9";
              dayOfMonth := js "*"; month := js "*"; dayOfWeek := js "7" |} 7);
    [reflexivity|reflexivity|reflexivity|right; lia].
Defined.

(** C2 as the spec states it fails: the sentence for ["0 9 * * 1-5"] is
    "At 09:00 on Monday", in which "at 09:00" does not occur and no day after
    Monday is named. *)
Lemma describeCron_weekdays_counterexample :
  exists parsed,
    parseCronExpression (js "0 9 * * 1-5") = Some parsed
    /\ describeCron upperCaseIdentity parsed = js "At 09:00 on Monday"
    /\ includes (describeCron upperCaseIdentity parsed) (js "at 09:00") = false
    /\ includes (describeCron upperCaseIdentity parsed) (js "Friday") = false.
Proof.
  eexists. split; [reflexivity|]. repeat split.
Qed.

(** C10 as stated fails: with dayOfMonth ["*"] and dayOfWeek ["7"] the
    sentence is "At 09:00 on " and does not contain "undefined". *)
Lemma describeCron_day_out_of_table_counterexample :
  let parsed := {| second := None; minute := js "0"; hour := js "9";
                   dayOfMonth := js "*"; month := js "*";
                   dayOfWeek := js "7" |} in
  describeCron upperCaseIdentity parsed = js "At 09:00 on "
  /\ includes (describeCron upperCaseIdentity parsed) (js "undefined") = false.
Proof.
  split; reflexivity.
Qed.

(** ** The module's exports *)

(** C9 on the code: the object of [export default] lists [encode] and
    [decode].  Neither is a function the module declares, and none of the
    four functions of the boundary is in the list. *)
Theorem default_export_misses_boundary :
  forallb (fun name => negb (existsb (String.eqb name) declared_functions))
          default_export = true
  /\ forallb (fun name => negb (existsb (String.eqb name) default_export))
             ["parseCronExpression"; "validateCronField"; "describeCron";
              "getNextExecutions"]%string = true.
Proof.
  split; reflexivity.
Qed.

(* ================================================================= *)
(** * Further properties *)

(** ** Numerals and separators *)

Lemma NumberToString_nonneg (n : Z) :
  0 <= n ->
  exists ds, ds <> [] /\ Forall is_digit ds
             /\ NumberToString n = List.map digit_char ds
             /\ digits_value 10 ds = n.
Proof.
  intros Hn. unfold NumberToString.
  replace (n <? 0) with false by (symmetry; apply Z.ltb_ge; exact Hn).
  destruct (digits_of_spec (S (Z.to_nat (Z.log2 n))) n [])
    as (ds & Hne & Hall & Heq & Hval).
  - rewrite Nat2Z.inj_succ, Z2Nat.id by apply Z.log2_nonneg.
    destruct (Z.eq_dec n 0) as [->|]; [simpl; lia|].
    pose proof (Z.log2_spec n). lia.
  - discriminate.
  - exists ds. rewrite app_nil_r in Heq. auto.
Qed.

Lemma NumberToString_neg (n : Z) :
  n < 0 ->
  exists ds, ds <> [] /\ Forall is_digit ds
             /\ NumberToString n = 45%N :: List.map digit_char ds
             /\ digits_value 10 ds = - n.
Proof.
  intros Hn. unfold NumberToString.
  replace (n <? 0) with true by (symmetry; apply Z.ltb_lt; exact Hn).
  destruct (digits_of_spec (S (Z.to_nat (Z.log2 (- n)))) (- n) [])
    as (ds & Hne & Hall & Heq & Hval).
  - rewrite Nat2Z.inj_succ, Z2Nat.id by apply Z.log2_nonneg.
    pose proof (Z.log2_spec (- n)). lia.
  - discriminate.
  - exists ds. rewrite app_nil_r in Heq. rewrite Heq. auto.
Qed.

(** A code unit that is not a decimal digit does not occur in a run of
    digits. *)
Lemma digits_without (ds : list Z) (c : jschar) :
  Forall is_digit ds -> (c < 48 \/ 57 < c)%N ->
  existsb (fun x => N.eqb x c) (List.map digit_char ds) = false.
Proof.
  intros Hall Hc. induction Hall as [|d ds Hd _ IH]; simpl; [reflexivity|].
  rewrite IH, orb_false_r. apply N.eqb_neq.
  unfold digit_char, is_digit in *. lia.
Qed.

Lemma digits_head (ds : list Z) :
  ds <> [] -> Forall is_digit ds ->
  exists d rest, is_digit d /\ List.map digit_char ds = digit_char d :: rest.
Proof.
  intros Hne Hall. destruct ds as [|d ds]; [congruence|].
  inversion Hall; subst. exists d, (List.map digit_char ds). auto.
Qed.

Lemma digit_char_not (d : Z) (c : jschar) :
  is_digit d -> (c < 48 \/ 57 < c)%N -> N.eqb (digit_char d) c = false.
Proof.
  intros Hd Hc. apply N.eqb_neq. unfold digit_char, is_digit in *. lia.
Qed.

(** The dispatch tests of the three field interpreters on a run of digits:
    it is not the wildcard, not a step, and holds no separator. *)
Lemma digits_dispatch (ds : list Z) :
  ds <> [] -> Forall is_digit ds ->
  let s := List.map digit_char ds in
  str_eqb s (js "*") = false
  /\ startsWith s (js "*/") = false
  /\ includes s (js "-") = false
  /\ includes s (js ",") = false
  /\ includes s (js "/") = false.
Proof.
  intros Hne Hall s.
  change (js "-") with [45%N]; change (js ",") with [44%N];
    change (js "/") with [47%N].
  rewrite !includes_one.
  rewrite !(digits_without ds) by (auto; lia).
  destruct (digits_head ds Hne Hall) as (d & rest & Hd & Heq).
  unfold s. rewrite Heq.
  change (js "*") with [42%N]; change (js "*/") with [42%N; 47%N].
  cbn [str_eqb startsWith].
  rewrite (digit_char_not d 42) by (auto; lia).
  repeat split; reflexivity.
Qed.

(** Splitting at a separator that the first piece does not hold. *)
Lemma split_from_app (sep : jschar) (a b tok : jsstring) :
  existsb (fun x => N.eqb x sep) a = false ->
  split_from sep tok (a ++ sep :: b) = (tok ++ a) :: split_from sep [] b.
Proof.
  revert tok; induction a as [|x a IH]; intros tok; simpl.
  - intros _. now rewrite N.eqb_refl, app_nil_r.
  - destruct (N.eqb x sep); simpl; [discriminate|].
    intros H. rewrite IH by exact H. now rewrite <- app_assoc.
Qed.

Lemma existsb_false_forall (f : num -> bool) (l : list num) :
  existsb f l = false <-> (forall x, In x l -> f x = false).
Proof.
  induction l as [|y l IH]; simpl.
  - split; [intros _ x []|reflexivity].
  - rewrite orb_false_iff, IH. split.
    + intros [Hy Hl] x [<-|Hx]; auto.
    + intros H. split; auto.
Qed.

(** ** The field validator, all branches *)

Lemma validateCronField_single_eq (value : jsstring) (min max : Z) :
  str_eqb value (js "*") = false ->
  startsWith value (js "*/") = false ->
  includes value (js "-") = false ->
  includes value (js ",") = false ->
  validateCronField value min max =
  let num := parseInt value (Some 10) in
  if isNaN num || num_lt num (Int min) || num_gt num (Int max) then
    {| valid := false;
       error := Some (js "Must be " ++ NumberToString min ++ js "-"
                      ++ NumberToString max) |}
  else {| valid := true; error := None |}.
Proof.
  intros H1 H2 H3 H4. unfold validateCronField.
  rewrite H1, H2, H3, H4. reflexivity.
Qed.

Lemma in_range_test (v : num) (min max : Z) :
  isNaN v || num_lt v (Int min) || num_gt v (Int max) = false <->
  exists n, v = Int n /\ min <= n <= max.
Proof.
  destruct v as [|n]; simpl.
  - split; [discriminate|intros (? & ? & _); discriminate].
  - unfold num_gt; simpl. rewrite orb_false_iff, Z.ltb_ge, Z.ltb_ge. split.
    + intros [? ?]. exists n. split; [reflexivity|lia].
    + intros (n' & [= <-] & ?). lia.
Qed.

(** X1: a value that holds a comma and no dash (and is neither the wildcard
    nor a step) is validated as a list: it is valid exactly when every piece
    between commas parses to an integer within [min] and [max]; otherwise
    the error is "Values must be min-max".  An empty piece, as a trailing
    comma leaves, does not parse and makes the list invalid.  The bounds are
    integers that a number holds exactly. *)
Theorem validateCronField_list (value : jsstring) (min max : Z) :
  safeInteger min -> safeInteger max ->
  str_eqb value (js "*") = false ->
  startsWith value (js "*/") = false ->
  includes value (js "-") = false ->
  includes value (js ",") = true ->
  (valid (validateCronField value min max) = true <->
   forall element, In element (split value 44%N) ->
                   exists n, parseInt element (Some 10) = Int n /\ min <= n <= max)
  /\ validateCronField value min max =
     (if valid (validateCronField value min max)
      then {| valid := true; error := None |}
      else {| valid := false;
              error := Some (js "Values must be " ++ NumberToString min
                             ++ js "-" ++ NumberToString max) |})
  /\ (In [] (split value 44%N) ->
      valid (validateCronField value min max) = false).
Proof.
  intros _ _ H1 H2 H3 H4. unfold validateCronField.
  rewrite H1, H2, H3, H4.
  set (bad := fun v => isNaN v || num_lt v (Int min) || num_gt v (Int max)).
  set (values := List.map (fun v => parseInt v (Some 10)) (split value 44%N)).
  assert (existsb bad values = false <->
          forall element, In element (split value 44%N) ->
            exists n, parseInt element (Some 10) = Int n /\ min <= n <= max) as Hiff.
  { rewrite existsb_false_forall. unfold values. split.
    - intros H element Hin. apply in_range_test. apply H.
      apply in_map_iff. eauto.
    - intros H x Hx. apply in_map_iff in Hx as (element & <- & Hin).
      apply in_range_test. auto. }
  destruct (existsb bad values) eqn:E; cbn [valid].
  - split; [|split; [reflexivity|reflexivity]].
    split; [discriminate|]. intros H. apply Hiff in H. discriminate.
  - split; [|split; [reflexivity|]].
    + split; [intros _; apply Hiff; reflexivity|reflexivity].
    + intros Hin. destruct (proj1 Hiff eq_refl [] Hin) as (n & Hn & _).
      discriminate.
Qed.

Lemma validateCronField_list_witness :
  valid (validateCronField (js "1,15,30") 0 59) = true
  /\ valid (validateCronField (js "1,15,") 0 59) = false.
Proof.
  split.
  - apply (proj1 (validateCronField_list (js "1,15,30") 0 59
                    eq_refl eq_refl eq_refl eq_refl eq_refl eq_refl)).
    intros element [<-|[<-|[<-|[]]]];
      [exists 1|exists 15|exists 30]; (split; [reflexivity|lia]).
  - apply (proj2 (proj2 (validateCronField_list (js "1,15,") 0 59
                           eq_refl eq_refl eq_refl eq_refl eq_refl eq_refl))).
    right; right; left; reflexivity.
Defined.

(** X2: a value that is neither the wildcard nor a step and holds neither a
    dash nor a comma is validated as a single value: it is valid exactly when
    [parseInt] reads an integer within [min] and [max] from it; otherwise
    the error is "Must be min-max".  Only the leading numeral counts: what
    follows it is not looked at.  The bounds are integers that a number holds
    exactly. *)
Theorem validateCronField_single (value : jsstring) (min max : Z) :
  safeInteger min -> safeInteger max ->
  str_eqb value (js "*") = false ->
  startsWith value (js "*/") = false ->
  includes value (js "-") = false ->
  includes value (js ",") = false ->
  (valid (validateCronField value min max) = true <->
   exists n, parseInt value (Some 10) = Int n /\ min <= n <= max)
  /\ validateCronField value min max =
     (if valid (validateCronField value min max)
      then {| valid := true; error := None |}
      else {| valid := false;
              error := Some (js "Must be " ++ NumberToString min
                             ++ js "-" ++ NumberToString max) |}).
Proof.
  intros _ _ H1 H2 H3 H4.
  rewrite (validateCronField_single_eq value min max H1 H2 H3 H4).
  cbv zeta. pose proof (in_range_test (parseInt value (Some 10)) min max) as Hiff.
  destruct (isNaN _ || _ || _); cbn [valid].
  - split; [|reflexivity]. split; [discriminate|].
    intros H. apply Hiff in H. discriminate.
  - split; [|reflexivity]. split; [intros _; now apply Hiff|reflexivity].
Qed.

Lemma validateCronField_single_witness :
  valid (validateCronField (js "59") 0 59) = true
  /\ valid (validateCronField (js "5 past") 0 59) = true.
Proof.
  split.
  - apply (proj1 (validateCronField_single (js "59") 0 59
                    eq_refl eq_refl eq_refl eq_refl eq_refl eq_refl)).
    exists 59. split; [reflexivity|lia].
  - apply (proj1 (validateCronField_single (js "5 past") 0 59
                    eq_refl eq_refl eq_refl eq_refl eq_refl eq_refl)).
    exists 5. split; [reflexivity|lia].
Defined.

(** X3: whatever the value and the bounds, the result carries an error
    message exactly when it is not valid. *)
Theorem validateCronField_error_iff_invalid (value : jsstring) (min max : Z) :
  valid (validateCronField value min max) =
  match error (validateCronField value min max) with
  | None => true
  | Some _ => false
  end.
Proof.
  unfold validateCronField.
  destruct (str_eqb value (js "*")); [reflexivity|].
  destruct (startsWith value (js "*/")).
  { destruct (isNaN _ || _); reflexivity. }
  destruct (includes value (js "-")).
  { destruct (isNaN _ || _ || _ || _ || _); reflexivity. }
  destruct (includes value (js ",")).
  { destruct (existsb _ _); reflexivity. }
  destruct (isNaN _ || _ || _); reflexivity.
Qed.

(** ** Fields written as numerals *)

Lemma nonneg_numeral_dispatch (n : Z) :
  0 <= n ->
  let s := NumberToString n in
  str_eqb s (js "*") = false
  /\ startsWith s (js "*/") = false
  /\ includes s (js "-") = false
  /\ includes s (js ",") = false
  /\ includes s (js "/") = false.
Proof.
  intros Hn. destruct (NumberToString_nonneg n Hn) as (ds & Hne & Hall & Heq & _).
  cbv zeta. rewrite Heq. now apply digits_dispatch.
Qed.

(** A value that starts with a minus sign: the range branch finds an empty
    first piece. *)
Lemma leading_dash_dispatch (r : jsstring) :
  str_eqb (45%N :: r) (js "*") = false
  /\ startsWith (45%N :: r) (js "*/") = false
  /\ includes (45%N :: r) (js "-") = true
  /\ nth 0 (List.map (fun v => parseInt v (Some 10)) (split (45%N :: r) 45%N)) NaN
     = NaN.
Proof. repeat split. Qed.

Lemma in_range_bool (n min max : Z) :
  negb (isNaN (Int n) || num_lt (Int n) (Int min) || num_gt (Int n) (Int max))
  = (min <=? n) && (n <=? max).
Proof.
  unfold num_gt; simpl.
  destruct (Z.ltb_spec n min), (Z.ltb_spec max n),
    (Z.leb_spec min n), (Z.leb_spec n max); simpl; try reflexivity; lia.
Qed.

(** X4: the numeral of an integer is a valid value exactly when the integer
    is not negative and lies within [min] and [max].  A negative numeral is
    never valid, even between negative bounds: its minus sign makes it a
    range with an empty start.  The bounds are integers that a number holds
    exactly. *)
Theorem validateCronField_numeral (n min max : Z) :
  safeInteger min -> safeInteger max ->
  valid (validateCronField (NumberToString n) min max)
  = (0 <=? n) && (min <=? n) && (n <=? max).
Proof.
  intros _ _.
  destruct (Z.leb_spec 0 n) as [Hn|Hn].
  - destruct (nonneg_numeral_dispatch n Hn) as (H1 & H2 & H3 & H4 & _).
    rewrite (validateCronField_single_eq _ min max H1 H2 H3 H4).
    cbv zeta. rewrite parseInt_NumberToString, andb_true_l, <- in_range_bool.
    destruct (isNaN _ || _ || _); reflexivity.
  - destruct (NumberToString_neg n Hn) as (ds & _ & _ & Heq & _).
    rewrite Heq.
    destruct (leading_dash_dispatch (List.map digit_char ds))
      as (H1 & H2 & H3 & H4).
    unfold validateCronField. rewrite H1, H2, H3, H4. reflexivity.
Qed.

Lemma validateCronField_numeral_witness :
  valid (validateCronField (js "59") 0 59) = true
  /\ valid (validateCronField (js "60") 0 59) = false
  /\ valid (validateCronField (js "-5") (-10) 10) = false.
Proof.
  split; [|split].
  - apply (validateCronField_numeral 59 0 59); reflexivity.
  - apply (validateCronField_numeral 60 0 59); reflexivity.
  - apply (validateCronField_numeral (-5) (-10) 10); reflexivity.
Defined.

(** X6: a field that is the numeral of a non-negative integer matches that
    integer and no other value; the numeral of a negative integer matches
    nothing.  The value is an integer that a number holds exactly, as
    calendar components are. *)
Theorem matchesField_numeral (n value : Z) :
  safeInteger value ->
  matchesField (NumberToString n) value = (0 <=? n) && (n =? value).
Proof.
  intros _.
  destruct (Z.leb_spec 0 n) as [Hn|Hn].
  - destruct (nonneg_numeral_dispatch n Hn) as (H1 & H2 & H3 & H4 & _).
    unfold matchesField. rewrite H1, H2, H3, H4, parseInt_NumberToString.
    reflexivity.
  - destruct (NumberToString_neg n Hn) as (ds & _ & _ & Heq & _).
    rewrite Heq.
    destruct (leading_dash_dispatch (List.map digit_char ds))
      as (H1 & H2 & H3 & H4).
    unfold matchesField. rewrite H1, H2, H3, H4. reflexivity.
Qed.

Lemma matchesField_numeral_witness :
  matchesField (js "30") 30 = true
  /\ matchesField (js "30") 31 = false
  /\ matchesField (js "-5") (-5) = false.
Proof.
  split; [|split].
  - apply (matchesField_numeral 30 30); reflexivity.
  - apply (matchesField_numeral 30 31); reflexivity.
  - apply (matchesField_numeral (-5) (-5)); reflexivity.
Defined.

(** The range written with two numerals and the pieces the interpreters
    read from it. *)
Lemma numeral_range_dispatch (a b : Z) :
  0 <= a -> 0 <= b ->
  let s := NumberToString a ++ js "-" ++ NumberToString b in
  str_eqb s (js "*") = false
  /\ startsWith s (js "*/") = false
  /\ includes s (js "-") = true
  /\ split s 45%N = [NumberToString a; NumberToString b].
Proof.
  intros Ha Hb.
  destruct (NumberToString_nonneg a Ha) as (da & Hnea & Halla & Heqa & _).
  destruct (NumberToString_nonneg b Hb) as (db & Hneb & Hallb & Heqb & _).
  cbv zeta. rewrite Heqa, Heqb.
  change (js "-") with [45%N]. cbn [app].
  assert (existsb (fun x => N.eqb x 45) (List.map digit_char da) = false) as Hda
      by (apply digits_without; auto; lia).
  assert (existsb (fun x => N.eqb x 45) (List.map digit_char db) = false) as Hdb
      by (apply digits_without; auto; lia).
  split; [|split; [|split]].
  - destruct (digits_head da Hnea Halla) as (d & rest & Hd & ->).
    change (js "*") with [42%N]. cbn [app str_eqb].
    rewrite (digit_char_not d 42) by (auto; lia). reflexivity.
  - destruct (digits_head da Hnea Halla) as (d & rest & Hd & ->).
    change (js "*/") with [42%N; 47%N]. cbn [app startsWith].
    rewrite (digit_char_not d 42) by (auto; lia). reflexivity.
  - rewrite includes_one, existsb_app. cbn [existsb].
    rewrite N.eqb_refl. apply orb_true_iff. right. reflexivity.
  - unfold split. rewrite split_from_app by exact Hda.
    rewrite split_from_no_sep by exact Hdb. reflexivity.
Qed.

(** X7: the range written with the numerals of two non-negative integers
    matches exactly the values from the first to the second, both included;
    when the first exceeds the second it matches nothing.  The value is an
    integer that a number holds exactly, as calendar components are. *)
Theorem matchesField_numeral_range (a b value : Z) :
  safeInteger value ->
  0 <= a -> 0 <= b ->
  matchesField (NumberToString a ++ js "-" ++ NumberToString b) value
  = (a <=? value) && (value <=? b).
Proof.
  intros _ Ha Hb.
  destruct (numeral_range_dispatch a b Ha Hb) as (H1 & H2 & H3 & H4).
  unfold matchesField. rewrite H1, H2, H3, H4.
  cbn [List.map nth]. rewrite !parseInt_NumberToString. reflexivity.
Qed.

Lemma matchesField_numeral_range_witness :
  matchesField (js "9-17") 12 = true /\ matchesField (js "9-17") 18 = false.
Proof.
  split.
  - apply (matchesField_numeral_range 9 17 12); [reflexivity|lia|lia].
  - apply (matchesField_numeral_range 9 17 18); [reflexivity|lia|lia].
Defined.

(** X8: the range written with the numerals of two non-negative integers is
    valid exactly when the first is at least [min], the second at most
    [max], and the first does not exceed the second.  The bounds are integers
    that a number holds exactly. *)
Theorem validateCronField_numeral_range (a b min max : Z) :
  safeInteger min -> safeInteger max ->
  0 <= a -> 0 <= b ->
  valid (validateCronField (NumberToString a ++ js "-" ++ NumberToString b)
                           min max)
  = (min <=? a) && (b <=? max) && (a <=? b).
Proof.
  intros _ _ Ha Hb.
  destruct (numeral_range_dispatch a b Ha Hb) as (H1 & H2 & H3 & H4).
  unfold validateCronField. rewrite H1, H2, H3, H4.
  cbn [List.map nth]. rewrite !parseInt_NumberToString.
  unfold num_gt; cbn [isNaN num_lt orb].
  destruct (Z.ltb_spec a min), (Z.ltb_spec max b), (Z.ltb_spec b a),
    (Z.leb_spec min a), (Z.leb_spec b max), (Z.leb_spec a b);
    simpl; try reflexivity; lia.
Qed.

Lemma validateCronField_numeral_range_witness :
  valid (validateCronField (js "9-17") 0 23) = true
  /\ valid (validateCronField (js "17-9") 0 23) = false.
Proof.
  split.
  - apply (validateCronField_numeral_range 9 17 0 23);
      [reflexivity|reflexivity|lia|lia].
  - apply (validateCronField_numeral_range 17 9 0 23);
      [reflexivity|reflexivity|lia|lia].
Defined.

Lemma numeralList_cons (a b : Z) (r : list Z) :
  numeralList (a :: b :: r)
  = NumberToString a ++ 44%N :: numeralList (b :: r).
Proof. reflexivity. Qed.

Lemma numeralList_no_dash (l : list Z) :
  Forall (fun n => 0 <= n) l ->
  existsb (fun x => N.eqb x 45) (numeralList l) = false.
Proof.
  induction l as [|a l IH]; intros Hall; [reflexivity|].
  inversion Hall as [|? ? Ha Hl]; subst.
  destruct (NumberToString_nonneg a Ha) as (ds & _ & Hds & Heq & _).
  destruct l as [|b r].
  - change (numeralList [a]) with (NumberToString a).
    rewrite Heq. apply digits_without; [exact Hds|lia].
  - rewrite numeralList_cons, existsb_app, Heq.
    rewrite digits_without by (auto; lia).
    cbn [existsb orb]. rewrite (IH Hl). reflexivity.
Qed.

Lemma split_numeralList (l : list Z) :
  l <> [] -> Forall (fun n => 0 <= n) l ->
  split (numeralList l) 44%N = List.map NumberToString l.
Proof.
  induction l as [|a l IH]; intros Hne Hall; [congruence|].
  inversion Hall as [|? ? Ha Hl]; subst.
  destruct (NumberToString_nonneg a Ha) as (ds & _ & Hds & Heq & _).
  assert (existsb (fun x => N.eqb x 44) (NumberToString a) = false) as Hno
      by (rewrite Heq; apply digits_without; [exact Hds|lia]).
  destruct l as [|b r].
  - change (numeralList [a]) with (NumberToString a).
    unfold split. now rewrite split_from_no_sep.
  - rewrite numeralList_cons. unfold split.
    rewrite split_from_app by exact Hno.
    cbn [List.map app]. f_equal. apply IH; [discriminate|exact Hl].
Qed.

Lemma numeralList_dispatch (a b : Z) (r : list Z) :
  Forall (fun n => 0 <= n) (a :: b :: r) ->
  let s := numeralList (a :: b :: r) in
  str_eqb s (js "*") = false
  /\ startsWith s (js "*/") = false
  /\ includes s (js "-") = false
  /\ includes s (js ",") = true.
Proof.
  intros Hall. cbv zeta.
  change (js "-") with [45%N]; change (js ",") with [44%N].
  rewrite !includes_one, (numeralList_no_dash _ Hall).
  inversion Hall as [|? ? Ha _]; subst.
  destruct (NumberToString_nonneg a Ha) as (ds & Hne & Hds & Heq & _).
  rewrite numeralList_cons, Heq.
  rewrite existsb_app. cbn [existsb]. rewrite N.eqb_refl.
  destruct (digits_head ds Hne Hds) as (d & rest & Hd & ->).
  change (js "*") with [42%N]; change (js "*/") with [42%N; 47%N].
  cbn [app str_eqb startsWith].
  rewrite (digit_char_not d 42) by (auto; lia).
  repeat split; try reflexivity.
  apply orb_true_iff; right; reflexivity.
Qed.

Lemma parsed_numerals (l : list Z) :
  List.map (fun v => parseInt v (Some 10)) (List.map NumberToString l)
  = List.map Int l.
Proof.
  rewrite map_map. apply map_ext. intros n. apply parseInt_NumberToString.
Qed.

(** X9: a list written with the numerals of non-negative integers matches
    exactly the values it lists, whether it has several elements, one, or
    none.  The value is an integer that a number holds exactly, as calendar
    components are. *)
Theorem matchesField_numeral_list (l : list Z) (value : Z) :
  safeInteger value ->
  Forall (fun n => 0 <= n) l ->
  matchesField (numeralList l) value = existsb (fun n => n =? value) l.
Proof.
  intros _ Hall. destruct l as [|a [|b r]].
  - reflexivity.
  - inversion Hall as [|? ? Ha _]; subst.
    change (numeralList [a]) with (NumberToString a).
    destruct (nonneg_numeral_dispatch a Ha) as (H1 & H2 & H3 & H4 & _).
    unfold matchesField. rewrite H1, H2, H3, H4, parseInt_NumberToString.
    cbn [existsb num_strict_eq]. now rewrite orb_false_r.
  - destruct (numeralList_dispatch a b r Hall) as (H1 & H2 & H3 & H4).
    unfold matchesField. rewrite H1, H2, H3, H4.
    rewrite split_numeralList by (auto; discriminate).
    rewrite parsed_numerals. unfold array_includes.
    generalize (a :: b :: r). intros l.
    induction l as [|n l IH]; [reflexivity|].
    cbn [List.map existsb sameValueZero]. now rewrite IH.
Qed.

Lemma matchesField_numeral_list_witness :
  matchesField (js "0,15,30,45") 30 = true
  /\ matchesField (js "0,15,30,45") 31 = false.
Proof.
  split.
  - apply (matchesField_numeral_list [0; 15; 30; 45] 30);
      [reflexivity|repeat constructor; lia].
  - apply (matchesField_numeral_list [0; 15; 30; 45] 31);
      [reflexivity|repeat constructor; lia].
Defined.

(** X10: a non-empty list written with the numerals of non-negative
    integers is valid exactly when every one of them lies within [min] and
    [max].  The bounds are integers that a number holds exactly. *)
Theorem validateCronField_numeral_list (l : list Z) (min max : Z) :
  safeInteger min -> safeInteger max ->
  l <> [] -> Forall (fun n => 0 <= n) l ->
  valid (validateCronField (numeralList l) min max)
  = forallb (fun n => (min <=? n) && (n <=? max)) l.
Proof.
  intros _ _ Hne Hall. destruct l as [|a [|b r]]; [congruence| |].
  - inversion Hall as [|? ? Ha _]; subst.
    change (numeralList [a]) with (NumberToString a).
    destruct (nonneg_numeral_dispatch a Ha) as (H1 & H2 & H3 & H4 & _).
    rewrite (validateCronField_single_eq _ min max H1 H2 H3 H4).
    cbv zeta. rewrite parseInt_NumberToString.
    cbn [forallb]. rewrite andb_true_r, <- in_range_bool.
    destruct (isNaN _ || _ || _); reflexivity.
  - destruct (numeralList_dispatch a b r Hall) as (H1 & H2 & H3 & H4).
    unfold validateCronField. rewrite H1, H2, H3, H4.
    rewrite split_numeralList by (auto; discriminate).
    rewrite parsed_numerals.
    assert (forall l' : list Z,
              negb (existsb (fun v => isNaN v || num_lt v (Int min)
                                      || num_gt v (Int max))
                            (List.map Int l'))
              = forallb (fun n => (min <=? n) && (n <=? max)) l') as Hl.
    { induction l' as [|n l' IH]; [reflexivity|].
      cbn [List.map existsb forallb].
      rewrite negb_orb, IH, in_range_bool. reflexivity. }
    rewrite <- Hl. destruct (existsb _ _); reflexivity.
Qed.

Lemma validateCronField_numeral_list_witness :
  valid (validateCronField (js "0,15,30,45") 0 59) = true
  /\ valid (validateCronField (js "0,15,60") 0 59) = false.
Proof.
  split.
  - apply (validateCronField_numeral_list [0; 15; 30; 45] 0 59);
      [reflexivity|reflexivity|discriminate|repeat constructor; lia].
  - apply (validateCronField_numeral_list [0; 15; 60] 0 59);
      [reflexivity|reflexivity|discriminate|repeat constructor; lia].
Defined.

(** X5: what the validator accepts and what the matcher matches agree on
    the bounds: a field other than the wildcard and a step that is valid for
    [min] and [max] matches no value outside them. *)
Theorem validated_field_matches_within_bounds
  (field : jsstring) (min max value : Z) :
  valid (validateCronField field min max) = true ->
  str_eqb field (js "*") = false ->
  startsWith field (js "*/") = false ->
  matchesField field value = true ->
  min <= value <= max.
Proof.
  unfold validateCronField, matchesField.
  intros Hvalid Hstar Hstep. rewrite Hstar, Hstep in *.
  destruct (includes field (js "-")).
  - rewrite !nth_parsed in *.
    destruct (parseInt (nth 0 (split field 45%N) []) (Some 10)) as [|s];
      [discriminate|].
    destruct (parseInt (nth 1 (split field 45%N) []) (Some 10)) as [|e];
      [discriminate|].
    unfold num_ge, num_gt in *. cbn [isNaN num_lt num_le orb] in *.
    destruct (Z.ltb_spec s min), (Z.ltb_spec max e), (Z.ltb_spec e s);
      try discriminate.
    intros Hm. apply andb_true_iff in Hm as [Hm1 Hm2].
    apply Z.leb_le in Hm1, Hm2. lia.
  - destruct (includes field (js ",")).
    + destruct (existsb _ _) eqn:E; [discriminate|].
      intros Hm. unfold array_includes in Hm.
      apply existsb_exists in Hm as (x & Hin & Hx).
      apply sameValueZero_Int in Hx. subst x.
      pose proof (proj1 (existsb_false_forall _ _) E _ Hin) as Hr.
      apply in_range_test in Hr as (n & [= <-] & ?). assumption.
    + destruct (isNaN _ || _ || _) eqn:E; [discriminate|].
      apply in_range_test in E as (n & Hn & ?). rewrite Hn.
      cbn [num_strict_eq]. intros Hm. apply Z.eqb_eq in Hm. lia.
Qed.

Lemma validated_field_matches_within_bounds_witness :
  0 <= 12 <= 23.
Proof.
  apply (validated_field_matches_within_bounds (js "9-17,x") 0 23 12);
    reflexivity.
Defined.

(** ** The occurrence simulator, further *)

Section SimulatorFurther.

Variable LocalTZA : Z -> Z.


Lemma candidates_app (now : Z) (n m : nat) :
  candidates now (n + m) =
  candidates now n
  ++ List.map (fun k => now + 60000 * Z.of_nat k) (seq (1 + n) m).
Proof. unfold candidates. now rewrite seq_app, map_app. Qed.


Lemma firstn_extend (A : list Z) (c c' : nat) :
  (c <= c')%nat -> exists rest, firstn c' A = firstn c A ++ rest.
Proof.
  intros Hc. exists (skipn c (firstn c' A)).
  rewrite <- (firstn_skipn c (firstn c' A)) at 1.
  rewrite firstn_firstn. now replace (Nat.min c c') with c by lia.
Qed.


(** X11: the [second] field plays no part in the search: changing it, or
    dropping it, leaves the result as it is. *)
Theorem getNextExecutions_ignores_second
  (now : Z) (parsed : ParsedCron) (s : option jsstring) (count : option Z) :
  getNextExecutions LocalTZA now (withSecond parsed s) count
  = getNextExecutions LocalTZA now parsed count.
Proof.
  rewrite !getNextExecutions_firstn. f_equal.
Qed.


(** X14: asking for more occurrences never changes the earlier ones: the
    result for a count is an initial segment of the result for any larger
    count. *)
Theorem getNextExecutions_prefix
  (now : Z) (parsed : ParsedCron) (count count' : Z) :
  count <= count' ->
  prefix_of (getNextExecutions LocalTZA now parsed (Some count))
            (getNextExecutions LocalTZA now parsed (Some count')).
Proof.
  intros Hc. rewrite !getNextExecutions_firstn. cbn [countOrDefault].
  replace (Z.to_nat (count' * 100))
    with (Z.to_nat (count * 100)
          + (Z.to_nat (count' * 100) - Z.to_nat (count * 100)))%nat by lia.
  rewrite candidates_app, filter_app, firstn_app.
  destruct (firstn_extend
              (filter (matchesAll LocalTZA parsed)
                      (candidates now (Z.to_nat (count * 100))))
              (Z.to_nat count) (Z.to_nat count')) as (rest & ->); [lia|].
  unfold prefix_of. rewrite <- app_assoc. eauto.
Qed.

Lemma step_no_match (rest : jsstring) (n value : Z) :
  parseInt rest (Some 10) = Int n -> 0 < value < n ->
  matchesField (js "*/" ++ rest) value = false.
Proof.
  intros Hp Hv. rewrite matchesField_step_eq, Hp. cbn [num_rem].
  destruct (Z.eqb_spec n 0); [lia|]. cbn [num_strict_eq].
  rewrite Z.rem_small by lia. apply Z.eqb_neq. lia.
Qed.

(** X15: a step larger than every value of its field is accepted by the
    validator, whatever the bounds, but matches no day of month when it
    exceeds 31 and no month when it exceeds 12: the search then returns the
    empty array. *)
Theorem getNextExecutions_step_beyond_field
  (now : Z) (parsed : ParsedCron) (count : option Z) (rest : jsstring) (n : Z) :
  parseInt rest (Some 10) = Int n ->
  (dayOfMonth parsed = js "*/" ++ rest /\ 31 < n)
  \/ (month parsed = js "*/" ++ rest /\ 12 < n) ->
  getNextExecutions LocalTZA now parsed count = []
  /\ forall min max,
       valid (validateCronField (js "*/" ++ rest) min max) = true.
Proof.
  intros Hp Hfield. split.
  - rewrite getNextExecutions_firstn, filter_none; [apply firstn_nil|].
    intros t. unfold matchesAll.
    destruct (calendar_ranges (LocalTime LocalTZA t))
      as (Hmonth & Hdate & _).
    destruct Hfield as [[-> Hn]|[-> Hn]].
    + unfold getDate. rewrite (step_no_match rest n _ Hp) by lia.
      now rewrite !andb_false_r.
    + unfold getMonth. rewrite (step_no_match rest n _ Hp) by lia.
      now rewrite !andb_false_r.
  - intros min max. unfold validateCronField.
    change (str_eqb (js "*/" ++ rest) (js "*")) with false.
    change (startsWith (js "*/" ++ rest) (js "*/")) with true.
    change (substring (js "*/" ++ rest) 2) with rest.
    cbv iota. rewrite Hp. cbn [isNaN num_le orb].
    destruct (Z.leb_spec n 0); [|reflexivity].
    destruct Hfield as [[_ ?]|[_ ?]]; lia.
Qed.

End SimulatorFurther.


Lemma getNextExecutions_prefix_witness :
  prefix_of
    (getNextExecutions UTC 0
       {| second := None; minute := js "*/15"; hour := js "*";
          dayOfMonth := js "*"; month := js "*"; dayOfWeek := js "*" |}
       (Some 1))
    (getNextExecutions UTC 0
       {| second := None; minute := js "*/15"; hour := js "*";
          dayOfMonth := js "*"; month := js "*"; dayOfWeek := js "*" |}
       (Some 2)).
Proof.
  apply (getNextExecutions_prefix UTC 0
           {| second := None; minute := js "*/15"; hour := js "*";
              dayOfMonth := js "*"; month := js "*"; dayOfWeek := js "*" |}
           1 2).
  lia.
Defined.

Lemma getNextExecutions_step_beyond_field_witness :
  getNextExecutions UTC 0
    {| second := None; minute := js "0"; hour := js "0";
       dayOfMonth := js "*/40"; month := js "*"; dayOfWeek := js "*" |}
    None = []
  /\ valid (validateCronField (js "*/40") 1 31) = true.
Proof.
  destruct (getNextExecutions_step_beyond_field UTC 0
              {| second := None; minute := js "0"; hour := js "0";
                 dayOfMonth := js "*/40"; month := js "*"; dayOfWeek := js "*" |}
              None (js "40") 40 eq_refl) as [H1 H2].
  - left. split; [reflexivity|lia].
  - split; [exact H1|exact (H2 1 31)].
Defined.

(** ** The expression splitter, further *)

Lemma tokens_from_run (t rest cur : jsstring) :
  forallb (fun c => negb (isWhiteSpace c)) t = true ->
  tokens_from (Some cur) (t ++ rest) = tokens_from (Some (cur ++ t)) rest.
Proof.
  revert cur; induction t as [|x t IH]; intros cur Hall.
  - now rewrite app_nil_r.
  - cbn [forallb] in Hall. apply andb_true_iff in Hall as [Hx Ht].
    apply negb_true_iff in Hx. cbn [app tokens_from]. rewrite Hx.
    rewrite IH by exact Ht. now rewrite <- app_assoc.
Qed.

Lemma tokens_from_token (t rest : jsstring) :
  is_token t -> tokens_from None (t ++ rest) = tokens_from (Some t) rest.
Proof.
  intros [Hne Hall]. destruct t as [|x t]; [congruence|].
  cbn [forallb] in Hall. apply andb_true_iff in Hall as [Hx Ht].
  apply negb_true_iff in Hx. cbn [app tokens_from]. rewrite Hx.
  now rewrite tokens_from_run.
Qed.

(** Joining tokens with single spaces and reading the tokens back. *)
Lemma tokens_join (l : list jsstring) :
  Forall is_token l -> tokens (join l (js " ")) = l.
Proof.
  unfold tokens. induction l as [|t l IH]; intros Hall; [reflexivity|].
  inversion Hall as [|? ? Ht Hl]; subst.
  destruct l as [|u r].
  - cbn [join]. rewrite <- (app_nil_r t) at 1.
    now rewrite tokens_from_token.
  - change (join (t :: u :: r) (js " ")) with (t ++ 32%N :: join (u :: r) (js " ")).
    rewrite tokens_from_token by exact Ht.
    cbn [tokens_from]. change (isWhiteSpace 32) with true. cbv iota.
    now rewrite IH.
Qed.

Lemma tokens_blank (s : jsstring) :
  forallb isWhiteSpace s = true -> tokens s = [].
Proof.
  unfold tokens. induction s as [|c s IH]; [reflexivity|].
  cbn [forallb tokens_from]. intros H. apply andb_true_iff in H as [-> Hs].
  now apply IH.
Qed.

(** X16: writing five or six fields out with single spaces and parsing the
    line gives the same fields back, provided each field is a token (not
    empty, no white space in it). *)
Theorem parseCronExpression_join :
  (forall m h dom mon dow : jsstring,
     Forall is_token [m; h; dom; mon; dow] ->
     parseCronExpression (join [m; h; dom; mon; dow] (js " "))
     = Some {| second := None; minute := m; hour := h; dayOfMonth := dom;
               month := mon; dayOfWeek := dow |})
  /\ (forall s m h dom mon dow : jsstring,
        Forall is_token [s; m; h; dom; mon; dow] ->
        parseCronExpression (join [s; m; h; dom; mon; dow] (js " "))
        = Some {| second := Some s; minute := m; hour := h; dayOfMonth := dom;
                  month := mon; dayOfWeek := dow |}).
Proof.
  split; intros; unfold parseCronExpression;
    rewrite split_ws_trim, tokens_join by assumption; reflexivity.
Qed.

Lemma parseCronExpression_join_witness :
  parseCronExpression (js "*/15 9-17 * * 1,3,5")
  = Some {| second := None; minute := js "*/15"; hour := js "9-17";
            dayOfMonth := js "*"; month := js "*"; dayOfWeek := js "1,3,5" |}.
Proof.
  apply (proj1 parseCronExpression_join
           (js "*/15") (js "9-17") (js "*") (js "*") (js "1,3,5")).
  repeat constructor; discriminate.
Defined.

(** X17: the result depends on the tokens of the expression only, so white
    space around the fields and the length of the runs between them do not
    matter; an expression that is empty or all white space gives [null]. *)
Theorem parseCronExpression_whitespace :
  (forall e e' : jsstring,
     tokens e = tokens e' -> parseCronExpression e = parseCronExpression e')
  /\ (forall e : jsstring,
        forallb isWhiteSpace e = true -> parseCronExpression e = None).
Proof.
  split.
  - intros e e' H. unfold parseCronExpression.
    now rewrite !split_ws_trim, H.
  - intros e H. unfold parseCronExpression.
    now rewrite split_ws_trim, tokens_blank.
Qed.

Lemma parseCronExpression_whitespace_witness :
  parseCronExpression (js "  0   9 * *  1-5 ")
  = parseCronExpression (js "0 9 * * 1-5")
  /\ parseCronExpression (js "   ") = None.
Proof.
  split.
  - apply (proj1 parseCronExpression_whitespace). reflexivity.
  - apply (proj2 parseCronExpression_whitespace). reflexivity.
Defined.

(** ** The description renderer, further *)

Lemma secondPart_cases (parsed : ParsedCron) :
  secondPart parsed = [] \/ exists r, secondPart parsed = js "at " ++ r.
Proof.
  unfold secondPart. destruct (second parsed) as [s|]; [|now left].
  destruct (truthy s && negb (str_eqb s (js "*"))); [right; eauto|now left].
Qed.

(** The time fragment always begins with "at " or with "every minute". *)
Lemma timePart_head (parsed : ParsedCron) :
  (exists r, timePart parsed = js "at " ++ r)
  \/ (exists r, timePart parsed = js "every minute" ++ r).
Proof.
  unfold timePart. cbv zeta.
  destruct (str_eqb (minute parsed) (js "*")), (str_eqb (hour parsed) (js "*"));
    cbn [andb negb].
  - destruct (secondPart_cases parsed) as [->|(r & ->)].
    + right. exists []. reflexivity.
    + left. exists (r ++ js ", every minute").
      change (js "at " ++ r) with (97%N :: 116%N :: 32%N :: r).
      cbn [truthy]. reflexivity.
  - right. eexists. reflexivity.
  - left. eexists. reflexivity.
  - left. eexists. reflexivity.
Qed.

Lemma join_head (x : jsstring) (l : list jsstring) (sep : jsstring) :
  join (x :: l) sep
  = x ++ match l with [] => [] | _ => sep ++ join l sep end.
Proof. destruct l; [now rewrite app_nil_r|reflexivity]. Qed.

Section RendererFurther.

Variable upperCaseNonASCII : jschar -> jsstring.

(** The sentence before its first letter is put in upper case: the time
    fragment, then the rest. *)
Lemma description_head (parsed : ParsedCron) :
  exists tail,
    join (filter truthy [timePart parsed; dayPart parsed; monthPart parsed])
         (js " ")
    = timePart parsed ++ tail.
Proof.
  assert (truthy (timePart parsed) = true) as Ht.
  { destruct (timePart_head parsed) as [(r & ->)|(r & ->)]; reflexivity. }
  cbn [filter]. rewrite Ht, join_head. eauto.
Qed.

(** X18: whatever the fields, the description is not empty and begins with
    "At " or with "Every minute"; the letter put in upper case is always an
    ASCII one, so the sentence does not depend on the host's case tables. *)
Theorem describeCron_begins (parsed : ParsedCron) :
  (startsWith (describeCron upperCaseNonASCII parsed) (js "At ") = true
   \/ startsWith (describeCron upperCaseNonASCII parsed) (js "Every minute")
      = true)
  /\ forall otherTable,
       describeCron otherTable parsed = describeCron upperCaseNonASCII parsed.
Proof.
  unfold describeCron.
  destruct (description_head parsed) as (tail & ->).
  destruct (timePart_head parsed) as [(r & ->)|(r & ->)]; split;
    try (intros otherTable; reflexivity).
  - left. reflexivity.
  - right. reflexivity.
Qed.

(** X19: the [second] field is described only when minute and hour are both
    ["*"]: in every other case the sentence is the one of the same fields
    without [second]. *)
Theorem describeCron_second_dropped
  (parsed : ParsedCron) (s : option jsstring) :
  str_eqb (minute parsed) (js "*") && str_eqb (hour parsed) (js "*") = false ->
  describeCron upperCaseNonASCII (withSecond parsed s)
  = describeCron upperCaseNonASCII parsed.
Proof.
  intros H. unfold describeCron.
  assert (timePart (withSecond parsed s) = timePart parsed) as ->.
  { unfold timePart. cbn [withSecond minute hour]. rewrite H. reflexivity. }
  reflexivity.
Qed.

(** The names that a list of numerals is rendered with. *)
Lemma names_of_numerals (lookup : Z -> option jsstring) (l : list Z) :
  join_opt
    (List.map (fun m => match parseInt m (Some 10) with
                        | NaN => Some m
                        | Int k => lookup k
                        end)
              (List.map NumberToString l))
    (js ", ")
  = join (List.map (fun n => match lookup n with
                             | Some name => name
                             | None => []
                             end) l)
         (js ", ").
Proof.
  unfold join_opt. rewrite !map_map. f_equal. apply map_ext.
  intros n. rewrite parseInt_NumberToString. reflexivity.
Qed.

Lemma numeralList_not_star (l : list Z) :
  l <> [] -> Forall (fun n => 0 <= n) l ->
  str_eqb (numeralList l) (js "*") = false.
Proof.
  intros Hne Hall. destruct l as [|a [|b r]]; [congruence| |].
  - inversion Hall; subst.
    now destruct (nonneg_numeral_dispatch a) as (H & _).
  - now destruct (numeralList_dispatch a b r Hall) as (H & _).
Qed.

(** X20: a month field that lists the numerals of non-negative integers is
    rendered as "in " followed by the month names, joined with ", ": the
    name of month n for n from 1 to 12, and nothing where n is 0 or above
    12. *)
Theorem monthPart_numerals (parsed : ParsedCron) (l : list Z) :
  l <> [] -> Forall (fun n => 0 <= n) l ->
  month parsed = numeralList l ->
  monthPart parsed
  = js "in " ++ join (List.map (fun n => nameOrEmpty monthNames (n - 1)) l)
                     (js ", ").
Proof.
  intros Hne Hall Hm. unfold monthPart.
  rewrite Hm, numeralList_not_star by assumption. cbn [negb].
  rewrite split_numeralList by assumption.
  now rewrite (names_of_numerals (fun k => index monthNames (k - 1))).
Qed.

(** X21: with dayOfMonth ["*"], a day-of-week field that lists the numerals
    of non-negative integers is rendered as "on " followed by the day names,
    joined with ", ": the name of day n for n from 0 (Sunday) to 6, and
    nothing where n is above 6. *)
Theorem dayPart_numerals (parsed : ParsedCron) (l : list Z) :
  l <> [] -> Forall (fun n => 0 <= n) l ->
  dayOfMonth parsed = js "*" ->
  dayOfWeek parsed = numeralList l ->
  dayPart parsed
  = js "on " ++ join (List.map (nameOrEmpty dayNames) l) (js ", ").
Proof.
  intros Hne Hall Hdom Hdow. unfold dayPart, dowDesc.
  rewrite Hdom, Hdow, numeralList_not_star by assumption.
  cbn [str_eqb js negb andb].
  change (str_eqb (js "*") (js "*")) with true. cbn [negb andb].
  rewrite split_numeralList by assumption.
  now rewrite (names_of_numerals (index dayNames)).
Qed.

End RendererFurther.

Lemma describeCron_second_dropped_witness :
  describeCron upperCaseIdentity
    {| second := Some (js "30"); minute := js "0"; hour := js "9";
       dayOfMonth := js "*"; month := js "*"; dayOfWeek := js "*" |}
  = js "At 09:00".
Proof.
  apply (describeCron_second_dropped upperCaseIdentity
           {| second := None; minute := js "0"; hour := js "9";
              dayOfMonth := js "*"; month := js "*"; dayOfWeek := js "*" |}
           (Some (js "30"))).
  reflexivity.
Defined.

Lemma monthPart_numerals_witness :
  monthPart {| second := None; minute := js "0"; hour := js "0";
               dayOfMonth := js "1"; month := js "1,6,13";
               dayOfWeek := js "*" |}
  = js "in January, June, ".
Proof.
  apply (monthPart_numerals
           {| second := None; minute := js "0"; hour := js "0";
              dayOfMonth := js "1"; month := js "1,6,13";
              dayOfWeek := js "*" |} [1; 6; 13]);
    [discriminate|repeat constructor; lia|reflexivity].
Defined.

Lemma dayPart_numerals_witness :
  dayPart {| second := None; minute := js "0"; hour := js "9";
             dayOfMonth := js "*"; month := js "*";
             dayOfWeek := js "1,3,5" |}
  = js "on Monday, Wednesday, Friday".
Proof.
  apply (dayPart_numerals
           {| second := None; minute := js "0"; hour := js "9";
              dayOfMonth := js "*"; month := js "*";
              dayOfWeek := js "1,3,5" |} [1; 3; 5]);
    [discriminate|repeat constructor; lia|reflexivity|reflexivity].
Defined.

(** [parseInt] without a radix on a string that starts with neither white
    space nor a sign nor a hexadecimal prefix, and on such a string after a
    minus sign. *)
Lemma parseInt_None_plain (c : jschar) (r : jsstring) :
  isWhiteSpace c = false -> N.eqb c 45 = false -> N.eqb c 43 = false ->
  startsWith (c :: r) (js "0x") = false ->
  startsWith (c :: r) (js "0X") = false ->
  parseInt (c :: r) None =
  match radix_prefix 10 (c :: r) with
  | [] => NaN
  | ds => Int (digits_value 10 ds)
  end.
Proof.
  intros Hw Hm Hp Hx HX. unfold parseInt.
  cbn -[radix_prefix digits_value isWhiteSpace N.eqb Z.mul startsWith js].
  rewrite Hw, Hm, Hp.
  cbn -[radix_prefix digits_value isWhiteSpace N.eqb Z.mul startsWith js].
  rewrite Hx, HX.
  cbn -[radix_prefix digits_value isWhiteSpace N.eqb Z.mul startsWith js].
  destruct (radix_prefix 10 (c :: r)); [reflexivity|].
  f_equal. lia.
Qed.

Lemma parseInt_None_minus (r : jsstring) :
  startsWith r (js "0x") = false ->
  startsWith r (js "0X") = false ->
  parseInt (45%N :: r) None =
  match radix_prefix 10 r with
  | [] => NaN
  | ds => Int (- digits_value 10 ds)
  end.
Proof.
  intros Hx HX. unfold parseInt.
  cbn -[radix_prefix digits_value Z.mul startsWith js].
  rewrite Hx, HX.
  cbn -[radix_prefix digits_value Z.mul startsWith js].
  destruct (radix_prefix 10 r); reflexivity.
Qed.

Lemma digits_not_hex (ds : list Z) :
  Forall is_digit ds ->
  startsWith (List.map digit_char ds) (js "0x") = false
  /\ startsWith (List.map digit_char ds) (js "0X") = false.
Proof.
  intros Hall. change (js "0x") with [48%N; 120%N]; change (js "0X") with [48%N; 88%N].
  destruct ds as [|d [|d' r]]; cbn [List.map startsWith];
    [auto|now rewrite !andb_false_r|].
  pose proof (Forall_inv (Forall_inv_tail Hall)) as Hd'.
  rewrite (digit_char_not d' 120), (digit_char_not d' 88) by (auto; lia).
  cbn [andb]. now rewrite andb_false_r.
Qed.

(** Without a radix too, reading back the numeral of an integer gives the
    integer. *)
Lemma parseInt_None_NumberToString (n : Z) :
  parseInt (NumberToString n) None = Int n.
Proof.
  destruct (Z.leb_spec 0 n) as [Hn|Hn].
  - destruct (NumberToString_nonneg n Hn) as (ds & Hne & Hall & Heq & Hval).
    rewrite Heq. destruct (digits_not_hex ds Hall) as [Hx HX].
    pose proof (radix_prefix_digits ds Hall) as Hp.
    destruct (digits_head ds Hne Hall) as (d & rest & Hd & Hds).
    rewrite Hds in *.
    destruct (digit_char_facts d Hd) as (Hw & _ & Hm & Hpl).
    rewrite parseInt_None_plain, Hp by assumption.
    destruct ds; [congruence|]. now rewrite Hval.
  - destruct (NumberToString_neg n Hn) as (ds & Hne & Hall & Heq & Hval).
    rewrite Heq. destruct (digits_not_hex ds Hall) as [Hx HX].
    rewrite parseInt_None_minus, (radix_prefix_digits ds Hall) by assumption.
    destruct ds; [congruence|]. rewrite Hval. f_equal. lia.
Qed.

(** X22: a step written with the numeral of n is described as "every n"
    followed by the field name, in the plural exactly when n is greater
    than 1. *)
Theorem describeField_step_numeral (n : Z) (fieldName : jsstring) :
  describeField (js "*/" ++ NumberToString n) fieldName
  = js "every " ++ NumberToString n ++ js " " ++ fieldName
    ++ (if 1 <? n then js "s" else []).
Proof.
  unfold describeField.
  change (str_eqb (js "*/" ++ NumberToString n) (js "*")) with false.
  change (startsWith (js "*/" ++ NumberToString n) (js "*/")) with true.
  change (substring (js "*/" ++ NumberToString n) 2) with (NumberToString n).
  cbv iota zeta. rewrite parseInt_None_NumberToString. reflexivity.
Qed.

Lemma NumberToString_small (n : Z) :
  0 <= n < 10 -> NumberToString n = [digit_char n].
Proof.
  intros Hn. unfold NumberToString.
  replace (n <? 0) with false by (symmetry; apply Z.ltb_ge; lia).
  rewrite digits_of_S.
  replace (n <? 10) with true by (symmetry; apply Z.ltb_lt; lia).
  now rewrite Z.mod_small by lia.
Qed.

Lemma NumberToString_long (n : Z) :
  10 <= n -> (2 <= List.length (NumberToString n))%nat.
Proof.
  intros Hn.
  destruct (NumberToString_nonneg n) as (ds & Hne & Hall & -> & Hval); [lia|].
  rewrite length_map.
  destruct ds as [|d [|d' r]]; [congruence| |simpl; lia].
  pose proof (Forall_inv Hall) as Hd.
  unfold digits_value in Hval; simpl in Hval. unfold is_digit in Hd. lia.
Qed.

Lemma padStart_numeral (n : Z) :
  0 <= n -> padStart (NumberToString n) 2 (js "0") = twoDigits n.
Proof.
  intros Hn. unfold padStart, twoDigits.
  destruct (Z.ltb_spec n 10) as [Hs|Hl].
  - rewrite NumberToString_small by lia. reflexivity.
  - pose proof (NumberToString_long n Hl) as Hlen.
    destruct (Nat.leb_spec 2 (List.length (NumberToString n))); [reflexivity|lia].
Qed.

(** X23: when hour and minute are the numerals of non-negative integers,
    the time fragment is "at HH:MM", each of the two written with at least
    two digits, a zero being put before a single digit. *)
Theorem timePart_clock (parsed : ParsedCron) (h m : Z) :
  0 <= h -> 0 <= m ->
  hour parsed = NumberToString h ->
  minute parsed = NumberToString m ->
  timePart parsed = js "at " ++ twoDigits h ++ js ":" ++ twoDigits m.
Proof.
  intros Hh Hm Eh Em. unfold timePart. cbv zeta. rewrite Eh, Em.
  destruct (nonneg_numeral_dispatch h Hh) as (H1 & _ & H3 & H4 & H5).
  destruct (nonneg_numeral_dispatch m Hm) as (M1 & _ & M3 & M4 & M5).
  rewrite H1, M1, H3, H4, H5, M3, M4, M5. cbn [andb negb orb].
  now rewrite !padStart_numeral by assumption.
Qed.

Lemma timePart_clock_witness :
  timePart {| second := None; minute := js "5"; hour := js "14";
              dayOfMonth := js "*"; month := js "*"; dayOfWeek := js "*" |}
  = js "at 14:05".
Proof.
  apply (timePart_clock
           {| second := None; minute := js "5"; hour := js "14";
              dayOfMonth := js "*"; month := js "*"; dayOfWeek := js "*" |}
           14 5); try reflexivity; lia.
Defined.

(** X24: how [describeField] words a field written with numerals of
    non-negative integers: a single value as "name n", a range as
    "names a through b", and a list of two or more as "names" followed by the
    numerals joined with ", ". *)
Theorem describeField_numerals (fieldName : jsstring) :
  (forall n, 0 <= n ->
     describeField (NumberToString n) fieldName
     = fieldName ++ js " " ++ NumberToString n)
  /\ (forall a b, 0 <= a -> 0 <= b ->
        describeField (NumberToString a ++ js "-" ++ NumberToString b) fieldName
        = fieldName ++ js "s " ++ NumberToString a ++ js " through "
          ++ NumberToString b)
  /\ (forall a b r, Forall (fun n => 0 <= n) (a :: b :: r) ->
        describeField (numeralList (a :: b :: r)) fieldName
        = fieldName ++ js "s "
          ++ join (List.map NumberToString (a :: b :: r)) (js ", ")).
Proof.
  split; [|split].
  - intros n Hn.
    destruct (nonneg_numeral_dispatch n Hn) as (H1 & H2 & H3 & H4 & _).
    unfold describeField. now rewrite H1, H2, H3, H4.
  - intros a b Ha Hb.
    destruct (numeral_range_dispatch a b Ha Hb) as (H1 & H2 & H3 & H4).
    unfold describeField. rewrite H1, H2, H3, H4. reflexivity.
  - intros a b r Hall.
    destruct (numeralList_dispatch a b r Hall) as (H1 & H2 & H3 & H4).
    unfold describeField. rewrite H1, H2, H3, H4.
    now rewrite split_numeralList by (auto; discriminate).
Qed.

Lemma describeField_numerals_witness :
  describeField (js "9-17") (js "hour") = js "hours 9 through 17"
  /\ describeField (js "0,30") (js "minute") = js "minutes 0, 30".
Proof.
  split.
  - apply (proj1 (proj2 (describeField_numerals (js "hour"))) 9 17); lia.
  - apply (proj2 (proj2 (describeField_numerals (js "minute"))) 0 30 []).
    repeat constructor; lia.
Defined.
